(** * Push-to-talk core of linux_stt: hotkey listener, audio recorder,
      recording orchestration and the transcriber singleton.

    Shallow embedding of [src/linux_stt/hotkey.py], [audio.py],
    [main.py] (the two callbacks of [run_daemon]) and [transcribe.py]. *)

From Stdlib Require Import ZArith List Bool Lia QArith_base.
From stdpp Require Import base gmap list strings.
Import ListNotations.
Open Scope Z_scope.

(* ------------------------------------------------------------------ *)
(** ** hotkey.py *)

Module Hotkey.

(** evdev constants used by the listener. *)
Definition EV_KEY : Z := 1.
Definition KEY_LEFTCTRL : Z := 29.
Definition KEY_RIGHTCTRL : Z := 97.

(** An evdev [InputEvent], reduced to the three fields the loop reads. *)
Record InputEvent := mkEvent {
  ev_type : Z;
  ev_code : Z;
  ev_value : Z
}.

(** A callback invocation of the loop, tagged with the code that the
    accompanying [logger.debug] line reports. *)
Inductive Fired :=
| Pressed (code : Z)
| Released (code : Z).

Definition is_press_fired (f : Fired) : bool :=
  match f with Pressed _ => true | Released _ => false end.

Definition fired_code (f : Fired) : Z :=
  match f with Pressed c | Released c => c end.

(** The listener's fields that the loop reads and writes. *)
Record Listener := mkListener {
  key_codes : list Z;
  key_states : gmap Z bool
}.

(** [HotkeyListener(key_codes=None)]: default monitored keys. *)
Definition default_key_codes : list Z := [KEY_LEFTCTRL; KEY_RIGHTCTRL].

(** [{code: False for code in key_codes}] *)
Definition init_key_states (codes : list Z) : gmap Z bool :=
  list_to_map (map (fun c => (c, false)) codes).

Definition new_listener (codes : list Z) : Listener :=
  mkListener codes (init_key_states codes).

(** [event.code not in self.key_codes] *)
Definition monitored (codes : list Z) (c : Z) : bool :=
  existsb (Z.eqb c) codes.

(** One iteration of the inner [for event in device.read()] loop. The
    callback's own exceptions are caught and logged by the loop and do not
    touch [_key_states], so they are not modelled. *)
Definition handle_event (l : Listener) (ev : InputEvent)
  : Listener * option Fired :=
  if negb (Z.eqb (ev_type ev) EV_KEY) then (l, None)
  else if negb (monitored (key_codes l) (ev_code ev)) then (l, None)
  else if Z.eqb (ev_value ev) 2 then (l, None)
  else
    let is_press := Z.eqb (ev_value ev) 1 in
    let current_state := default false (key_states l !! ev_code ev) in
    if Bool.eqb current_state is_press then (l, None)
    else
      let l' := mkListener (key_codes l)
                  (<[ev_code ev := is_press]> (key_states l)) in
      (l', Some (if is_press then Pressed (ev_code ev)
                 else Released (ev_code ev))).

(** [_listen_loop] over the sequence of raw events read from the ready
    devices, in the order the selector delivers them. Returns the final
    listener and the callbacks fired, in order. *)
Fixpoint listen_loop (l : Listener) (evs : list InputEvent)
  : Listener * list Fired :=
  match evs with
  | [] => (l, [])
  | ev :: rest =>
      let '(l1, o) := handle_event l ev in
      let '(l2, fs) := listen_loop l1 rest in
      (l2, match o with Some f => f :: fs | None => fs end)
  end.

(** [press], [release] and [repeat] events of a key. *)
Definition key_press (c : Z) : InputEvent := mkEvent EV_KEY c 1.
Definition key_release (c : Z) : InputEvent := mkEvent EV_KEY c 0.
Definition key_repeat (c : Z) : InputEvent := mkEvent EV_KEY c 2.

(** The fired callbacks strictly alternate, beginning with a press when
    [expect_press] holds. *)
Fixpoint alternates (expect_press : bool) (fs : list Fired) : bool :=
  match fs with
  | [] => true
  | f :: rest =>
      Bool.eqb (is_press_fired f) expect_press && alternates (negb expect_press) rest
  end.

Definition fired_for (c : Z) (fs : list Fired) : list Fired :=
  List.filter (fun f => Z.eqb (fired_code f) c) fs.

(** [self._key_states.get(c, False)]. *)
Definition cur (l : Listener) (c : Z) : bool := default false (key_states l !! c).

End Hotkey.

(* ------------------------------------------------------------------ *)
(** ** audio.py *)

Module Audio.

(** One sample row [(channels,)] of a float32 array; sample values are
    kept abstract as integers, only their order matters here. *)
Definition Row := list Z.
(** An [indata.copy()] frame pushed by [_audio_callback]: its rows. *)
Definition Frame := list Row.

(** Device selector accepted by [AudioRecorder(device=...)]. *)
Inductive Selector :=
| SelIndex (idx : Z)
| SelName (name : string).

(** One entry of [sd.query_devices()]. *)
Record DeviceInfo := mkDeviceInfo {
  dev_name : string;
  dev_max_input_channels : Z;
  dev_default_samplerate : Z
}.

(** One dictionary of [list_devices()]. *)
Record DeviceEntry := mkDeviceEntry {
  entry_index : Z;
  entry_name : string;
  entry_max_input_channels : Z;
  entry_default_samplerate : Z
}.

(** The exceptions raised by [AudioRecorder]. *)
Inductive AudioError :=
| RuntimeError (msg : string)
  (** [ValueError(f"Sample rate must be positive, got {sample_rate}")] *)
| SampleRateNotPositive (sample_rate : Z)
  (** [ValueError(f"Channels must be 1 (mono) or 2 (stereo), got {channels}")] *)
| BadChannels (channels : Z)
  (** [sd.PortAudioError(f"Invalid device '{device}': ...Available input
      devices:\n{device_list}")] of [_validate_device]; [available] is the
      [list_devices()] result that the message renders. *)
| InvalidDevice (device : Selector) (available : list DeviceEntry)
  (** any other [sd.PortAudioError], with the text of the underlying error *)
| PortAudioError (msg : string).

(** Outcome of creating and starting [sd.InputStream] in
    [start_recording]. *)
Inductive StreamOutcome :=
| StreamStarted
| StreamCtorFails (msg : string)    (* [sd.InputStream(...)] raises *)
| StreamStartFails (msg : string).  (* [self._stream.start()] raises *)

(** The recorder's fields. [rec_stream] is [self._stream is not None];
    [rec_queue] is the content of [_audio_queue], oldest first. *)
Record Recorder := mkRecorder {
  rec_sample_rate : Z;
  rec_channels : Z;
  rec_device : option Selector;
  rec_stream : bool;
  rec_queue : list Frame;
  rec_recording : bool;
  rec_audio_data : list Frame
}.

Section WithDevices.
(** [sd.query_devices()]: the device table. *)
Variable devices : list DeviceInfo.
(** [sd.query_devices(device)]: [None] when it raises ([ValueError] or
    [sd.PortAudioError], which [_validate_device] catches alike). *)
Variable query_device : Selector -> option DeviceInfo.

(** [list_devices()]: the devices with at least one input channel, with
    their index. *)
Fixpoint list_devices_from (idx : Z) (ds : list DeviceInfo)
  : list DeviceEntry :=
  match ds with
  | [] => []
  | d :: rest =>
      let tl := list_devices_from (idx + 1) rest in
      if 0 <? dev_max_input_channels d
      then mkDeviceEntry idx (dev_name d) (dev_max_input_channels d)
             (dev_default_samplerate d) :: tl
      else tl
  end.

Definition list_devices : list DeviceEntry := list_devices_from 0 devices.

(** [_validate_device]: both the inner channel-count error and a failing
    query are turned into the [PortAudioError] listing the devices. *)
Definition validate_device (channels : Z) (device : Selector)
  : option AudioError :=
  match query_device device with
  | Some info =>
      if dev_max_input_channels info <? channels
      then Some (InvalidDevice device list_devices)
      else None
  | None => Some (InvalidDevice device list_devices)
  end.

(** [AudioRecorder.__init__]. *)
Definition new_recorder (sample_rate channels : Z) (device : option Selector)
  : AudioError + Recorder :=
  if sample_rate <=? 0 then inl (SampleRateNotPositive sample_rate)
  else if negb ((channels =? 1) || (channels =? 2)) then inl (BadChannels channels)
  else
    match device with
    | Some d =>
        match validate_device channels d with
        | Some e => inl e
        | None => inr (mkRecorder sample_rate channels device false [] false [])
        end
    | None => inr (mkRecorder sample_rate channels device false [] false [])
    end.
End WithDevices.

(** [_audio_callback]: [self._audio_queue.put(indata.copy())]. *)
Definition audio_callback (indata : Frame) (r : Recorder) : Recorder :=
  mkRecorder (rec_sample_rate r) (rec_channels r) (rec_device r)
    (rec_stream r) (rec_queue r ++ [indata]) (rec_recording r)
    (rec_audio_data r).

(** [start_recording]. The error text rewriting of the [except] branch is
    abstracted to the underlying message. *)
Definition start_recording (out : StreamOutcome) (r : Recorder)
  : Recorder * option AudioError :=
  if rec_recording r then (r, Some (RuntimeError "Already recording"))
  else
    (* self._audio_data.clear(); drain the queue *)
    match out with
    | StreamStarted =>
        (mkRecorder (rec_sample_rate r) (rec_channels r) (rec_device r)
           true [] true [], None)
    | StreamCtorFails m =>
        (mkRecorder (rec_sample_rate r) (rec_channels r) (rec_device r)
           (rec_stream r) [] false [], Some (PortAudioError m))
    | StreamStartFails m =>
        (mkRecorder (rec_sample_rate r) (rec_channels r) (rec_device r)
           true [] false [], Some (PortAudioError m))
    end.

(** [np.concatenate(self._audio_data, axis=0)]; the empty case is
    [np.array([]).reshape(0, channels)], which has no rows. *)
Definition concat_frames (fs : list Frame) : list Row := concat fs.

(** [stop_recording]. [stream_ok] is [false] when [self._stream.stop()] or
    [close()] raises; the exception then leaves the [with] block before
    any field is updated. *)
Definition stop_recording (stream_ok : bool) (r : Recorder)
  : Recorder * (AudioError + list Row) :=
  if negb (rec_recording r)
  then (r, inl (RuntimeError "Not currently recording"))
  else if rec_stream r && negb stream_ok
  then (r, inl (PortAudioError "stream stop failed"))
  else
    let data := rec_audio_data r ++ rec_queue r in
    (mkRecorder (rec_sample_rate r) (rec_channels r) (rec_device r)
       false [] false data,
     inr (match data with
          | [] => []
          | _ => concat_frames data
          end)).

(** [is_recording]. *)
Definition is_recording (r : Recorder) : bool := rec_recording r.

(** Frames delivered by the stream callback, in arrival order. *)
Definition push_all (frames : list Frame) (r : Recorder) : Recorder :=
  fold_left (fun acc f => audio_callback f acc) frames r.


(** A selector the recorder rejects: unknown to [sd.query_devices], or
    with fewer input channels than requested. *)
Definition unsupported (query_device : Selector -> option DeviceInfo)
  (d : Selector) (channels : Z) : Prop :=
  match query_device d with
  | Some info => dev_max_input_channels info < channels
  | None => True
  end.


End Audio.

(* ------------------------------------------------------------------ *)
(** ** main.py: [on_key_press] and [on_key_release] of [run_daemon] *)

Module Orchestrator.
Import Audio.

(** The values of the shared [state] string. *)
Inductive RecordingState := IDLE | RECORDING | PROCESSING.

#[global] Instance RecordingState_eq_dec : EqDecision RecordingState.
Proof. solve_decision. Defined.

(** Observable actions of the callbacks, in program order: every
    assignment to [state], the calls into the recorder and the
    transcriber, text output and feedback. *)
Inductive Act :=
| SetState (s : RecordingState)
| CallStartRecording
| CallStopRecording
| CallTranscribe (audio : list Row) (sample_rate : Z)
| CallOutput (text : string)
| FeedbackStart
| FeedbackStop
| FeedbackComplete (text : string)
| FeedbackError.

(** The closure of [run_daemon] the callbacks share: the [state]
    variable, the [audio] recorder and [config.sample_rate]. *)
Record Daemon := mkDaemon {
  state : RecordingState;
  audio : Recorder;
  config_sample_rate : Z
}.

(** What the external collaborators do during one [on_key_press]. *)
Record PressEnv := mkPressEnv {
  press_stream : StreamOutcome
}.

(** What the external collaborators do during one [on_key_release]:
    whether the stream stops cleanly, what [transcriber.transcribe]
    returns ([None]: it raises) and whether [output.output] raises. *)
Record ReleaseEnv := mkReleaseEnv {
  release_stream_ok : bool;
  release_transcript : option string;
  release_output_ok : bool
}.

(** [int(0.1 * config.sample_rate)]. For a positive integer rate below
    2^50, the double product [0.1 * r] is at least [r/10] (the double
    [0.1] exceeds 1/10 and rounding is monotone, [r/10] being
    representable when it is an integer) and is within far less than
    [0.1] of [r/10], so truncation gives the floor of [r/10]. *)
Definition min_samples (sample_rate : Z) : Z := sample_rate / 10.

(** [str.strip()] whitespace (ASCII part). *)
Definition is_space (a : Ascii.ascii) : bool :=
  match Ascii.nat_of_ascii a with
  | 32 | 9 | 10 | 11 | 12 | 13 => true
  | _ => false
  end%nat.

(** [text and text.strip()]: a non-whitespace character occurs. *)
Fixpoint has_content (s : string) : bool :=
  match s with
  | EmptyString => false
  | String a rest => negb (is_space a) || has_content rest
  end.

Definition with_state (d : Daemon) (s : RecordingState) : Daemon :=
  mkDaemon s (audio d) (config_sample_rate d).

Definition with_audio (d : Daemon) (r : Recorder) : Daemon :=
  mkDaemon (state d) r (config_sample_rate d).

(** [on_key_press]. *)
Definition on_key_press (env : PressEnv) (d : Daemon) : Daemon * list Act :=
  if decide (state d <> IDLE) then (d, [])
  else
    let d1 := with_state d RECORDING in
    let '(r', err) := start_recording (press_stream env) (audio d1) in
    let d2 := with_audio d1 r' in
    match err with
    | None => (d2, [SetState RECORDING; FeedbackStart; CallStartRecording])
    | Some _ =>
        (with_state d2 IDLE,
         [SetState RECORDING; FeedbackStart; CallStartRecording;
          FeedbackError; SetState IDLE])
    end.

(** The body of the [try] block of [on_key_release], from the recorded
    buffer on: transcription, output and feedback. [None] as the second
    component means an exception reached the [except] clause. *)
Definition transcribe_and_output (env : ReleaseEnv) (sr : Z)
  (audio_data : list Row) : list Act * bool :=
  match release_transcript env with
  | None => ([CallTranscribe audio_data sr], false)
  | Some text =>
      if has_content text then
        if release_output_ok env
        then ([CallTranscribe audio_data sr; CallOutput text;
               FeedbackComplete text], true)
        else ([CallTranscribe audio_data sr; CallOutput text], false)
      else ([CallTranscribe audio_data sr], true)
  end.

(** [on_key_release]. The [finally] clause appends [SetState IDLE] on
    every path that passed the guard, including the early [return] of the
    too-short branch, which has already written [IDLE] itself. *)
Definition on_key_release (env : ReleaseEnv) (d : Daemon)
  : Daemon * list Act :=
  if decide (state d <> RECORDING) then (d, [])
  else
    let d1 := with_state d PROCESSING in
    let pre := [SetState PROCESSING; FeedbackStop; CallStopRecording] in
    let '(r', res) := stop_recording (release_stream_ok env) (audio d1) in
    let d2 := with_audio d1 r' in
    let body :=
      match res with
      | inl _ => [FeedbackError]
      | inr audio_data =>
          if Z.of_nat (length audio_data) <? min_samples (config_sample_rate d)
          then [SetState IDLE]
          else
            let '(acts, ok) :=
              transcribe_and_output env (config_sample_rate d) audio_data in
            if ok then acts else acts ++ [FeedbackError]
      end in
    (with_state d2 IDLE, pre ++ body ++ [SetState IDLE]).

(** Callback invocations delivered by the hotkey thread, which calls them
    synchronously one after the other. *)
Inductive Input :=
| Press (env : PressEnv)
| Release (env : ReleaseEnv).

Definition step (i : Input) (d : Daemon) : Daemon * list Act :=
  match i with
  | Press env => on_key_press env d
  | Release env => on_key_release env d
  end.

Fixpoint run (d : Daemon) (is : list Input) : Daemon * list Act :=
  match is with
  | [] => (d, [])
  | i :: rest =>
      let '(d1, a1) := step i d in
      let '(d2, a2) := run d1 rest in
      (d2, a1 ++ a2)
  end.

(** The successive writes to [state] of an action log, as
    (old value, new value) pairs, starting from [s]. *)
Fixpoint transitions (s : RecordingState) (acts : list Act)
  : list (RecordingState * RecordingState) :=
  match acts with
  | [] => []
  | SetState s' :: rest => (s, s') :: transitions s' rest
  | _ :: rest => transitions s rest
  end.

Definition allowed_transition (t : RecordingState * RecordingState) : bool :=
  match t with
  | (IDLE, RECORDING) | (RECORDING, PROCESSING) | (PROCESSING, IDLE) => true
  | _ => false
  end.

Definition idle_writes (acts : list Act) : nat :=
  length (List.filter (fun a => match a with SetState IDLE => true | _ => false end) acts).

Definition transcribe_calls (acts : list Act) : list (list Row * Z) :=
  flat_map (fun a => match a with CallTranscribe x sr => [(x, sr)] | _ => [] end) acts.

Definition recorder_calls (acts : list Act) : nat :=
  length (List.filter (fun a => match a with
                           | CallStartRecording | CallStopRecording => true
                           | _ => false end) acts).

(** The value of [state] after the writes of [acts], starting from [s]. *)
Fixpoint last_write (s : RecordingState) (acts : list Act) : RecordingState :=
  match acts with
  | [] => s
  | SetState s' :: rest => last_write s' rest
  | _ :: rest => last_write s rest
  end.


(** The transitions the callbacks perform by design: the three of the
    cycle, the revert of a failed capture start, and writes that keep the
    value. *)
Definition design_transition (t : RecordingState * RecordingState) : bool :=
  allowed_transition t || bool_decide (t = (RECORDING, IDLE))
  || bool_decide (fst t = snd t).


(** The daemon right after start-up: [state = "IDLE"], recorder built by
    [AudioRecorder(sample_rate=config.sample_rate)]. *)
Definition daemon0 (sr : Z) : Daemon :=
  mkDaemon IDLE (mkRecorder sr 1 None false [] false []) sr.


(** A recorder inside a session, with nothing captured yet. *)
Definition recording_recorder (sr : Z) (frames : list Frame) : Recorder :=
  mkRecorder sr 1 None true frames true [].


End Orchestrator.

(* ------------------------------------------------------------------ *)
(** ** transcribe.py: the [Transcriber] singleton *)

Module TranscriberModel.

(** Objects are heap addresses. *)
Definition Obj := nat.

(** The class attributes [_instance], [_model], [_model_path], [_device]
    and [_is_loaded]. Since [__new__] only ever hands out the one object
    stored in [_instance], the attributes [__init__] and [load_model]
    assign on [self] are those of that object; they are kept here next to
    the class attributes they shadow. [next_obj] is the allocator. *)
Record TState := mkTState {
  t_instance : option Obj;
  t_model : option nat;
  t_model_path : option string;
  t_device : option string;
  t_is_loaded : bool;
  next_obj : nat
}.

Definition initial : TState := mkTState None None None None false 0.

(** The exceptions of the constructor and of [load_model]. *)
Inductive TError :=
| ValueError (msg : string)
| RuntimeError (msg : string).

(** The host: whether [import torch] succeeds and what
    [torch.cuda.is_available()] returns. *)
Record Host := mkHost {
  torch_present : bool;
  cuda_available : bool
}.

(** [_resolve_device]. *)
Definition resolve_device (h : Host) (device : string) : TError + string :=
  if String.eqb device "auto" then
    if torch_present h && cuda_available h then inr "cuda" else inr "cpu"
  else if String.eqb device "cuda" then
    if negb (torch_present h) then
      inl (ValueError "CUDA device requested but PyTorch not found. Please install PyTorch or use device='cpu'")
    else if negb (cuda_available h) then
      inl (ValueError "CUDA device requested but not available. Please install CUDA-enabled PyTorch or use device='cpu'")
    else inr "cuda"
  else if String.eqb device "cpu" then inr "cpu"
  else inl (ValueError "Invalid device. Must be 'auto', 'cpu', or 'cuda'").

(** [Transcriber.__new__]. *)
Definition t_new (st : TState) : TState * Obj :=
  match t_instance st with
  | Some o => (st, o)
  | None =>
      let o := next_obj st in
      (mkTState (Some o) (t_model st) (t_model_path st) (t_device st)
         (t_is_loaded st) (S o), o)
  end.

(** [Transcriber.__init__] on the object [__new__] returned. *)
Definition t_init (h : Host) (model_path : option string) (device : string)
  (st : TState) : TState * option TError :=
  if t_is_loaded st && bool_decide (t_model st <> None) then (st, None)
  else
    let mp := match model_path with
              | None => "iic/SenseVoiceSmall"%string
              | Some p => p
              end in
    let st1 := mkTState (t_instance st) (t_model st) (Some mp) (t_device st)
                 (t_is_loaded st) (next_obj st) in
    match resolve_device h device with
    | inl e => (st1, Some e)
    | inr dv =>
        (mkTState (t_instance st1) (t_model st1) (t_model_path st1) (Some dv)
           (t_is_loaded st1) (next_obj st1), None)
    end.

(** [Transcriber(model_path, device)]: [__new__] then [__init__]; the
    call returns the object unless [__init__] raises. *)
Definition construct (h : Host) (model_path : option string) (device : string)
  (st : TState) : TState * (TError + Obj) :=
  let '(st1, o) := t_new st in
  let '(st2, err) := t_init h model_path device st1 in
  (st2, match err with Some e => inl e | None => inr o end).

(** [load_model]: [loaded] is [Some m] when [AutoModel(...)] returns the
    model [m], [None] when importing FunASR or building the model raises. *)
Definition load_model (loaded : option nat) (st : TState)
  : TState * option TError :=
  if t_is_loaded st && bool_decide (t_model st <> None) then (st, None)
  else
    match loaded with
    | Some m =>
        (mkTState (t_instance st) (Some m) (t_model_path st) (t_device st)
           true (next_obj st), None)
    | None =>
        (mkTState (t_instance st) None (t_model_path st) (t_device st)
           false (next_obj st), Some (RuntimeError "Failed to load model"))
    end.

(** Calls a program makes on the class. *)
Inductive TOp :=
| Construct (model_path : option string) (device : string)
| LoadModel (loaded : option nat).

(** Runs the calls in order; collects the objects the constructor calls
    returned. [load_model] is a method of the instance, so it is only
    called once an instance exists. *)
Fixpoint run_ops (h : Host) (st : TState) (ops : list TOp)
  : TState * list Obj :=
  match ops with
  | [] => (st, [])
  | Construct mp dv :: rest =>
      let '(st1, r) := construct h mp dv st in
      let '(st2, os) := run_ops h st1 rest in
      (st2, match r with inr o => o :: os | inl _ => os end)
  | LoadModel m :: rest =>
      match t_instance st with
      | None => run_ops h st rest
      | Some _ =>
          let '(st1, _) := load_model m st in
          run_ops h st1 rest
      end
  end.

(** The object [__new__] hands out from [st]. *)
Definition the_instance (st : TState) : Obj :=
  match t_instance st with Some o => o | None => next_obj st end.


End TranscriberModel.

(* ------------------------------------------------------------------ *)
(** ** transcribe.py: [Transcriber.transcribe] and [_clean_transcription] *)

Module TranscribeCall.

(** A Python [str] as its sequence of code points. *)
Definition pystr := list Z.

(** [str.isspace()], which is also what [\s] matches in a [str] pattern:
    the code points of Python's whitespace table. *)
Definition is_py_space (c : Z) : bool :=
  ((9 <=? c) && (c <=? 13)) || ((28 <=? c) && (c <=? 32)) ||
  (c =? 133) || (c =? 160) || (c =? 5760) ||
  ((8192 <=? c) && (c <=? 8202)) || (c =? 8232) || (c =? 8233) ||
  (c =? 8239) || (c =? 8287) || (c =? 12288).

(** The class [[\x00-\x1f\x7f-\x9f]]. *)
Definition is_ctrl (c : Z) : bool :=
  ((0 <=? c) && (c <=? 31)) || ((127 <=? c) && (c <=? 159)).

(** Greedy [[^|]+] followed by the rest: the longest prefix without ['|']. *)
Fixpoint span_nonbar (s : pystr) : pystr * pystr :=
  match s with
  | [] => ([], [])
  | c :: r =>
      if c =? 124 then ([], s)
      else let '(a, b) := span_nonbar r in (c :: a, b)
  end.

(** [re.sub(r'<\|[^|]+\|>', '', text)]: scanning left to right, a match at
    the current position is deleted and scanning resumes after it;
    otherwise the character is kept. Backtracking [[^|]+] to a shorter run
    leaves a non-['|'] character next, so only the longest run can be
    followed by ["|>"]. [fuel] bounds the scan by the length. *)
Fixpoint remove_tokens (fuel : nat) (s : pystr) : pystr :=
  match fuel with
  | O => s
  | S f =>
      match s with
      | [] => []
      | c :: r =>
          let default_step := c :: remove_tokens f r in
          if (c =? 60) then
            match r with
            | b :: r1 =>
                if b =? 124 then
                  match span_nonbar r1 with
                  | (_ :: _, b2 :: g :: rest) =>
                      if (b2 =? 124) && (g =? 62) then remove_tokens f rest
                      else default_step
                  | _ => default_step
                  end
                else default_step
            | [] => default_step
            end
          else default_step
      end
  end.

(** [re.sub(r'[\x00-\x1f\x7f-\x9f]', '', text)] *)
Definition remove_ctrl (s : pystr) : pystr :=
  List.filter (fun c => negb (is_ctrl c)) s.

(** [re.sub(r'\s+', ' ', text)]; [in_ws] holds inside a run already
    replaced by its single space. *)
Fixpoint collapse_ws (in_ws : bool) (s : pystr) : pystr :=
  match s with
  | [] => []
  | c :: r =>
      if is_py_space c
      then if in_ws then collapse_ws true r else 32 :: collapse_ws true r
      else c :: collapse_ws false r
  end.

Fixpoint lstrip (s : pystr) : pystr :=
  match s with
  | [] => []
  | c :: r => if is_py_space c then lstrip r else s
  end.

Fixpoint rstrip (s : pystr) : pystr :=
  match s with
  | [] => []
  | c :: r =>
      let r' := rstrip r in
      match r' with
      | [] => if is_py_space c then [] else [c]
      | _ => c :: r'
      end
  end.

(** [text.strip()] *)
Definition strip (s : pystr) : pystr := rstrip (lstrip s).

(** [_clean_transcription] on a [str]. *)
Definition clean_transcription (text : pystr) : pystr :=
  match text with
  | [] => []
  | _ => strip (collapse_ws false (remove_ctrl (remove_tokens (length text) text)))
  end.

(** The Python values [self._model.generate(...)] may return, as far as
    [transcribe] inspects them. [PyOther] is any other truthy object
    without [len] (a number, say). *)
#[local] Set Warnings "-register-all".
Inductive PyVal :=
| PyNone
| PyStr (s : pystr)
| PyList (xs : list PyVal)
| PyDict (items : list (pystr * PyVal))
| PyOther.

Definition key_text : pystr := [116; 101; 120; 116].

(** [d[k]] for a key present in the dict. *)
Fixpoint dict_get (items : list (pystr * PyVal)) (k : pystr) : option PyVal :=
  match items with
  | [] => None
  | (k', v) :: rest => if decide (k = k') then Some v else dict_get rest k
  end.

(** Exceptions of [transcribe]. *)
Inductive TranscribeError :=
| ModelNotLoaded            (* RuntimeError("Model not loaded. ...") *)
| InvalidAudio              (* ValueError about the audio array *)
| TranscriptionFailed.      (* RuntimeError("Transcription failed: ...")
                               or ("Out of memory ...") *)

(** The texts collected from a list result: dict items with a ["text"]
    key contribute that value, strings themselves, anything else
    nothing. *)
Fixpoint collect_texts (xs : list PyVal) : list PyVal :=
  match xs with
  | [] => []
  | PyDict items :: rest =>
      match dict_get items key_text with
      | Some v => v :: collect_texts rest
      | None => collect_texts rest
      end
  | PyStr s :: rest => PyStr s :: collect_texts rest
  | _ :: rest => collect_texts rest
  end.

(** [" ".join(texts)]: a [TypeError] (caught, [TranscriptionFailed]) when
    a collected value is not a [str]. *)
Fixpoint join_space (ts : list PyVal) : option pystr :=
  match ts with
  | [] => Some []
  | [PyStr s] => Some s
  | PyStr s :: rest =>
      match join_space rest with
      | Some j => Some (s ++ 32 :: j)
      | None => None
      end
  | _ => None
  end.

(** Python truthiness of the values above. *)
Definition falsy (v : PyVal) : bool :=
  match v with
  | PyNone | PyStr [] | PyList [] | PyDict [] => true
  | _ => false
  end.

(** [_clean_transcription(transcription)] on whatever value was
    extracted: [if not text: return ""], then [re.sub] raises [TypeError]
    on a non-[str]. *)
Definition clean_value (v : PyVal) : TranscribeError + pystr :=
  if falsy v then inr []
  else match v with
       | PyStr s => inr (clean_transcription s)
       | _ => inl TranscriptionFailed
       end.

(** The result handling inside the [try] of [transcribe]. *)
Definition extract_result (result : PyVal) : TranscribeError + pystr :=
  if falsy result then inr []
  else match result with
       | PyList xs =>
           match join_space (collect_texts xs) with
           | Some j => clean_value (PyStr j)
           | None => inl TranscriptionFailed
           end
       | PyDict items =>
           match dict_get items key_text with
           | Some v => clean_value v
           | None => inr []
           end
       | PyStr s => clean_value (PyStr s)
       | _ => inl TranscriptionFailed  (* len() of an object without it *)
       end.

(** The [audio] argument: a 1-D array, a 2-D array of [ncols] columns
    given by its rows, an array of another rank, or not an array. *)
Inductive NdArray :=
| Arr1 (xs : list Z)
| Arr2 (ncols : nat) (rows : list (list Z))
| ArrN (ndim : nat)
| NotArray.

(** The shape handling of [transcribe]. *)
Definition as_mono (a : NdArray) : TranscribeError + list Z :=
  match a with
  | Arr1 xs => inr xs
  | Arr2 ncols rows =>
      if Nat.eqb (length rows) 1 then inr (hd [] rows)
      else if Nat.eqb ncols 1 then inr (map (hd 0) rows)
      else inl InvalidAudio
  | ArrN _ => inl InvalidAudio
  | NotArray => inl InvalidAudio
  end.

(** [Transcriber.transcribe(audio, sample_rate)]. [loaded] is
    [self._is_loaded and self._model is not None]; [generated] is what
    [self._model.generate(...)] returns ([None]: it raises). *)
Definition transcribe (loaded : bool) (generated : option PyVal)
  (audio : NdArray) (sample_rate : Z) : TranscribeError + pystr :=
  if negb loaded then inl ModelNotLoaded
  else
    match as_mono audio with
    | inl e => inl e
    | inr xs =>
        if Nat.eqb (length xs) 0 then inr []
        else if Z.of_nat (length xs) <? sample_rate / 10 then inr []
        else
          match generated with
          | None => inl TranscriptionFailed
          | Some result => extract_result result
          end
    end.

(** The shape of a cleaned text: no control character, whitespace only as
    U+0020, never two whitespace characters in a row, none at either
    end. *)
Fixpoint no_double_ws (s : pystr) : bool :=
  match s with
  | a :: ((b :: _) as r) => negb (is_py_space a && is_py_space b) && no_double_ws r
  | _ => true
  end.

Definition clean_form (s : pystr) : bool :=
  forallb (fun c => negb (is_ctrl c)) s &&
  forallb (fun c => negb (is_py_space c) || (c =? 32)) s &&
  no_double_ws s &&
  match s with [] => true | c :: _ => negb (is_py_space c) end &&
  match last s with None => true | Some c => negb (is_py_space c) end.

End TranscribeCall.

(* ------------------------------------------------------------------ *)
(** ** audio.py: the queries of [AudioRecorder] *)

Module AudioQueries.
Import Audio.

(** Rows of a list of frames: [sum(len(chunk) for chunk in ...)]. *)
Definition samples_in (fs : list Frame) : Z :=
  fold_right (fun f acc => Z.of_nat (length f) + acc) 0 fs.

(** [get_audio_duration]: the samples still queued plus those stored,
    over the sample rate. The float quotient is the rounded value of this
    rational, so equal rationals give equal results. *)
Definition get_audio_duration (r : Recorder) : Q :=
  (inject_Z (samples_in (rec_queue r) + samples_in (rec_audio_data r))
   / inject_Z (rec_sample_rate r))%Q.

(** [sd.query_devices(i)] for an index of the device table. *)
Definition query_index (devices : list DeviceInfo) (i : Z) : option DeviceInfo :=
  if i <? 0 then None else nth_error devices (Z.to_nat i).

(** Errors of [get_default_device]. *)
Inductive DefaultDeviceError :=
| NoInputDevices                                 (* "No audio input devices found..." *)
| NoDefaultDevice (available : list DeviceEntry). (* "No default input device available..." *)

(** [get_default_device]; [default_idx] is [sd.default.device[0]]. The
    [PortAudioError]s of the [try] block are all turned into one of the
    two errors above, depending on [list_devices()]. *)
Definition get_default_device (devices : list DeviceInfo) (default_idx : option Z)
  : DefaultDeviceError + DeviceEntry :=
  let fail := match list_devices devices with
              | [] => inl NoInputDevices
              | avail => inl (NoDefaultDevice avail)
              end in
  match default_idx with
  | None => fail
  | Some i =>
      if i <? 0 then fail
      else match query_index devices i with
           | None => fail
           | Some d =>
               if dev_max_input_channels d =? 0 then fail
               else inr (mkDeviceEntry i (dev_name d) (dev_max_input_channels d)
                           (dev_default_samplerate d))
           end
  end.

End AudioQueries.

(* ------------------------------------------------------------------ *)
(** ** main.py: the callbacks together with the audio thread *)

Module Daemon.
Import Audio Orchestrator.

(** Events reaching the daemon: a hotkey callback, or a frame from the
    audio thread. [sounddevice] calls [_audio_callback] only while the
    stream is started, i.e. while the recorder is recording. *)
Inductive Event :=
| Callback (i : Input)
| AudioFrame (f : Frame).

Definition deliver_frame (f : Frame) (d : Daemon) : Daemon :=
  if rec_recording (audio d) then with_audio d (audio_callback f (audio d)) else d.

Fixpoint run_events (d : Daemon) (evs : list Event) : Daemon * list Act :=
  match evs with
  | [] => (d, [])
  | Callback i :: rest =>
      let '(d1, a1) := step i d in
      let '(d2, a2) := run_events d1 rest in
      (d2, a1 ++ a2)
  | AudioFrame f :: rest => run_events (deliver_frame f d) rest
  end.

(** Between callbacks: idle with the recorder closed, or recording with
    the recorder in its session. *)
Definition consistent (d : Daemon) : Prop :=
  (state d = IDLE /\ rec_recording (audio d) = false) \/
  (state d = RECORDING /\ rec_recording (audio d) = true).

(** Releases whose stream stops cleanly. *)
Definition clean_stop (i : Input) : Prop :=
  match i with
  | Release env => release_stream_ok env = true
  | Press _ => True
  end.


End Daemon.

(* ------------------------------------------------------------------ *)
(** ** hotkey.py: [find_keyboard_devices], [start], [stop], device loss *)

Module HotkeyLifecycle.
Import Hotkey.

Definition KEY_ENTER : Z := 28.
Definition KEY_A : Z := 30.
Definition KEY_SPACE : Z := 57.

(** An evdev [InputDevice]: its path and [capabilities(verbose=False)],
    a dict from event type to the codes of that type. *)
Record InputDeviceInfo := mkDev {
  dev_path : string;
  dev_caps : list (Z * list Z)
}.

(** [capabilities[t]] when [t in capabilities]. *)
Definition caps_lookup (t : Z) (caps : list (Z * list Z)) : option (list Z) :=
  option_map snd (List.find (fun p => Z.eqb (fst p) t) caps).

(** The test of the loop in [find_keyboard_devices]. *)
Definition is_keyboard (d : InputDeviceInfo) : bool :=
  match caps_lookup EV_KEY (dev_caps d) with
  | Some keys => existsb (fun key => existsb (Z.eqb key) keys) [KEY_A; KEY_ENTER; KEY_SPACE]
  | None => false
  end.

Inductive HotkeyError :=
| PermissionError
| RuntimeError (msg : string).

(** [find_keyboard_devices]: [listing] is [None] when opening the listed
    devices raises [PermissionError]. *)
Definition find_keyboard_devices (listing : option (list InputDeviceInfo))
  : HotkeyError + list string :=
  match listing with
  | None => inl PermissionError
  | Some devices =>
      match map dev_path (List.filter is_keyboard devices) with
      | [] => inl (RuntimeError "No keyboard devices found in /dev/input/")
      | paths => inr paths
      end
  end.

(** The listener object: the fields the loop uses, [_running], whether
    [_thread] and [_selector] are set, and the paths of [_devices]. *)
Record HL := mkHL {
  hl_listener : Listener;
  hl_running : bool;
  hl_thread : bool;
  hl_selector : bool;
  hl_devices : list string
}.

(** [HotkeyListener(key_codes)]. *)
Definition hl_new (codes : list Z) : HL := mkHL (new_listener codes) false false false [].

(** [_open_devices]: [opens p] tells whether [InputDevice(p)] succeeds;
    a failure is logged and skipped. Opened devices are appended to
    [_devices]. *)
Fixpoint open_devices (opens : string -> bool) (paths devs : list string) : list string :=
  match paths with
  | [] => devs
  | p :: ps => open_devices opens ps (if opens p then devs ++ [p] else devs)
  end.

(** [start]. *)
Definition start (listing : option (list InputDeviceInfo)) (opens : string -> bool)
  (hl : HL) : HL * option HotkeyError :=
  if hl_running hl then (hl, Some (RuntimeError "HotkeyListener is already running"))
  else
    match find_keyboard_devices listing with
    | inl e => (hl, Some e)
    | inr paths =>
        match open_devices opens paths (hl_devices hl) with
        | [] => (mkHL (hl_listener hl) (hl_running hl) (hl_thread hl) true [],
                 Some (RuntimeError "No keyboard devices could be opened"))
        | devs =>
            let l := hl_listener hl in
            (mkHL (mkListener (key_codes l) (init_key_states (key_codes l)))
               true true true devs, None)
        end
    end.

(** [stop]: [_close_devices] empties [_devices] whatever closing each
    device raises; the thread handle and the selector are dropped. *)
Definition stop (hl : HL) : HL :=
  if negb (hl_running hl) then hl
  else mkHL (hl_listener hl) false false false
         (if hl_selector hl then [] else hl_devices hl).

(** Events read by the listening thread, which runs while [_running]. *)
Definition on_events (evs : list InputEvent) (hl : HL) : HL * list Fired :=
  if hl_running hl then
    let '(l', fs) := listen_loop (hl_listener hl) evs in
    (mkHL l' (hl_running hl) (hl_thread hl) (hl_selector hl) (hl_devices hl), fs)
  else (hl, []).

(** [list.remove]: drops the first occurrence; a missing element raises
    [ValueError], which the loop catches. *)
Fixpoint remove_first (p : string) (ds : list string) : list string :=
  match ds with
  | [] => []
  | d :: rest => if String.eqb d p then rest else d :: remove_first p rest
  end.

(** The [OSError] branch of the loop: the device at [p] is unregistered
    and removed from [_devices]; [_key_states] is left as it is. *)
Definition disconnect (p : string) (hl : HL) : HL :=
  if hl_running hl then
    mkHL (hl_listener hl) (hl_running hl) (hl_thread hl) (hl_selector hl)
      (remove_first p (hl_devices hl))
  else hl.

Inductive LOp :=
| Start (listing : option (list InputDeviceInfo)) (opens : string -> bool)
| Stop
| Events (evs : list InputEvent)
| Disconnect (p : string).

Definition lstep (op : LOp) (hl : HL) : HL :=
  match op with
  | Start listing opens => fst (start listing opens hl)
  | Stop => stop hl
  | Events evs => fst (on_events evs hl)
  | Disconnect p => disconnect p hl
  end.

Definition run_lops (hl : HL) (ops : list LOp) : HL := fold_left (fun h op => lstep op h) ops hl.

(** Invariant of the listener object: stopped with no device held open,
    or running with its thread and selector set. *)
Definition lifecycle_inv (hl : HL) : Prop :=
  (hl_running hl = false /\ hl_devices hl = []) \/
  (hl_running hl = true /\ hl_thread hl = true /\ hl_selector hl = true).

(** Sample devices: a keyboard and a power button. *)
Definition kbd : InputDeviceInfo := mkDev "/dev/input/event3" [(1, [29; 30; 97])].
Definition power_button : InputDeviceInfo := mkDev "/dev/input/event0" [(1, [116])].

End HotkeyLifecycle.

(* ================================================================== *)
(** * Proofs *)

Module HotkeyProofs.
Import Hotkey.

Example loop_press_release :
  snd (listen_loop (new_listener default_key_codes)
         [key_press KEY_LEFTCTRL; key_repeat KEY_LEFTCTRL; key_release KEY_LEFTCTRL])
  = [Pressed KEY_LEFTCTRL; Released KEY_LEFTCTRL].
Proof. reflexivity. Qed.

(** Each event either leaves the listener alone and fires nothing, or
    flips the state of its own code and fires the matching edge. *)
Lemma handle_event_cases (l : Listener) (ev : InputEvent) :
  handle_event l ev = (l, None) \/
  exists b,
    cur l (ev_code ev) = negb b /\
    handle_event l ev =
      (mkListener (key_codes l) (<[ev_code ev := b]> (key_states l)),
       Some (if b then Pressed (ev_code ev) else Released (ev_code ev))).
Proof.
  unfold handle_event, cur.
  destruct (negb (ev_type ev =? EV_KEY)); [now left|].
  destruct (negb (monitored (key_codes l) (ev_code ev))); [now left|].
  destruct (ev_value ev =? 2); [now left|].
  set (b := ev_value ev =? 1).
  destruct (Bool.eqb (default false (key_states l !! ev_code ev)) b) eqn:E;
    [now left|].
  right. exists b. split; [|reflexivity].
  apply eqb_false_iff in E. destruct b, (default false _); simpl in *; congruence.
Qed.

Lemma handle_event_codes (l : Listener) (ev : InputEvent) :
  key_codes (fst (handle_event l ev)) = key_codes l.
Proof.
  destruct (handle_event_cases l ev) as [H | [b [_ H]]]; rewrite H; reflexivity.
Qed.

(** Per-code alternation from any listener state: the first edge fired
    for [c] is the opposite of [c]'s current state. *)
Lemma listen_loop_alternates (evs : list InputEvent) :
  forall (l : Listener) (c : Z),
    alternates (negb (cur l c)) (fired_for c (snd (listen_loop l evs))) = true.
Proof.
  induction evs as [|ev rest IH]; intros l c; [reflexivity|].
  simpl.
  destruct (handle_event_cases l ev) as [H | [b [Hcur H]]]; rewrite H.
  - destruct (listen_loop l rest) as [l2 fs] eqn:E.
    specialize (IH l c). rewrite E in IH. exact IH.
  - set (l1 := mkListener (key_codes l) (<[ev_code ev := b]> (key_states l))).
    destruct (listen_loop l1 rest) as [l2 fs] eqn:E.
    specialize (IH l1 c). rewrite E in IH. simpl in IH |- *.
    assert (Hf : fired_code (if b then Pressed (ev_code ev) else Released (ev_code ev))
                 = ev_code ev) by (destruct b; reflexivity).
    unfold fired_for; simpl. rewrite Hf.
    destruct (Z.eqb_spec (ev_code ev) c) as [<-|Hne].
    + unfold cur in IH. simpl in IH. rewrite lookup_insert_eq in IH. simpl in IH.
      rewrite Hcur. destruct b; simpl; exact IH.
    + unfold cur in IH. simpl in IH.
      rewrite lookup_insert_ne in IH by congruence. exact IH.
Qed.

(** Repeat events of any key leave the loop unchanged. *)
Lemma listen_loop_repeats (l : Listener) (c : Z) (n : nat)
  (rest : list InputEvent) :
  listen_loop l (repeat (key_repeat c) n ++ rest) = listen_loop l rest.
Proof.
  induction n as [|n IH]; [reflexivity|].
  simpl. unfold handle_event at 1. simpl.
  destruct (negb (monitored (key_codes l) c)); simpl; rewrite IH;
    destruct (listen_loop l rest); reflexivity.
Qed.

(** C1 (as the code has it): the default listener fires [on_press] once
    for each control key, so holding left-ctrl and then right-ctrl fires
    two presses with no release in between. *)
Lemma C1_two_presses_without_release :
  snd (listen_loop (new_listener default_key_codes)
         [key_press KEY_LEFTCTRL; key_press KEY_RIGHTCTRL])
  = [Pressed KEY_LEFTCTRL; Pressed KEY_RIGHTCTRL] /\
  alternates true
    (snd (listen_loop (new_listener default_key_codes)
            [key_press KEY_LEFTCTRL; key_press KEY_RIGHTCTRL])) = false.
Proof. split; reflexivity. Qed.

(** C1 (amended): after [start] resets every key to released, the
    callbacks fired on behalf of one key code strictly alternate
    press, release, press, ... for every sequence of raw events. *)
Theorem C1_per_key_alternation (codes : list Z) (evs : list InputEvent) (c : Z) :
  alternates true (fired_for c (snd (listen_loop (new_listener codes) evs))) = true.
Proof.
  pose proof (listen_loop_alternates evs (new_listener codes) c) as H.
  replace (cur (new_listener codes) c) with false in H; [exact H|].
  unfold cur, new_listener, init_key_states; simpl.
  destruct (list_to_map (map (fun c0 => (c0, false)) codes) !! c) as [v|] eqn:E;
    [|reflexivity].
  apply elem_of_list_to_map_2 in E. apply list_elem_of_fmap in E.
  destruct E as [? [Heq _]]. injection Heq as _ ->. reflexivity.
Qed.

(** C5: a press of a monitored released key, any number of auto-repeat
    events of it, then its release, fire exactly [on_press] then
    [on_release]. *)
Theorem C5_repeats_ignored (codes : list Z) (ks : gmap Z bool) (c : Z) (n : nat)
  (Hmon : monitored codes c = true)
  (Hup : default false (ks !! c) = false) :
  snd (listen_loop (mkListener codes ks)
         ([key_press c] ++ repeat (key_repeat c) n ++ [key_release c]))
  = [Pressed c; Released c].
Proof.
  simpl. unfold handle_event at 1; simpl. rewrite Hmon, Hup. simpl.
  rewrite listen_loop_repeats. simpl.
  unfold handle_event; simpl. rewrite Hmon, lookup_insert_eq. reflexivity.
Qed.

Lemma C5_repeats_ignored_witness :
  monitored default_key_codes KEY_RIGHTCTRL = true /\
  default false (init_key_states default_key_codes !! KEY_RIGHTCTRL) = false /\
  snd (listen_loop (new_listener default_key_codes)
         ([key_press KEY_RIGHTCTRL] ++ repeat (key_repeat KEY_RIGHTCTRL) 5
          ++ [key_release KEY_RIGHTCTRL]))
  = [Pressed KEY_RIGHTCTRL; Released KEY_RIGHTCTRL].
Proof.
  split; [reflexivity|]. split; [reflexivity|].
  apply (C5_repeats_ignored default_key_codes (init_key_states default_key_codes)
           KEY_RIGHTCTRL 5); reflexivity.
Defined.

End HotkeyProofs.

Module AudioProofs.
Import Audio.

Lemma push_all_fields (frames : list Frame) :
  forall r,
    push_all frames r =
    mkRecorder (rec_sample_rate r) (rec_channels r) (rec_device r)
      (rec_stream r) (rec_queue r ++ frames) (rec_recording r)
      (rec_audio_data r).
Proof.
  induction frames as [|f fs IH]; intros r.
  - destruct r; simpl; rewrite app_nil_r; reflexivity.
  - simpl. rewrite IH. simpl. rewrite <- app_assoc. reflexivity.
Qed.

Lemma stop_result_concat (data : list Frame) :
  match data with [] => [] | _ => concat_frames data end = concat data.
Proof. destruct data; reflexivity. Qed.

Example stop_three_frames :
  let r0 := mkRecorder 16000 1 None false [[[7]]] false [[[8]]] in
  let r1 := fst (start_recording StreamStarted r0) in
  snd (stop_recording true (push_all [[[1];[2]]; [[3]]; [[4];[5]]] r1))
  = inr [[1];[2];[3];[4];[5]].
Proof. reflexivity. Qed.

(** C6: a session opened by [start_recording] and closed by
    [stop_recording] returns the frames pushed in between, concatenated
    in arrival order; with no frame the result has no rows. Stale frames
    queued or stored before the session are dropped. *)
Theorem C6_stop_concatenates (r : Recorder) (frames : list Frame)
  (Hidle : rec_recording r = false) :
  exists r1 r2,
    start_recording StreamStarted r = (r1, None) /\
    stop_recording true (push_all frames r1) = (r2, inr (concat frames)) /\
    (frames = [] -> stop_recording true (push_all frames r1) = (r2, inr [])) /\
    rec_recording r2 = false.
Proof.
  unfold start_recording. rewrite Hidle.
  eexists _, _. split; [reflexivity|].
  rewrite push_all_fields. unfold stop_recording. simpl.
  rewrite stop_result_concat.
  split; [reflexivity|split; [intros ->; reflexivity | reflexivity]].
Qed.

Lemma C6_stop_concatenates_witness :
  rec_recording (mkRecorder 16000 1 None false [] false []) = false /\
  exists r1 r2,
    start_recording StreamStarted (mkRecorder 16000 1 None false [] false []) = (r1, None) /\
    stop_recording true (push_all [[[1]]; [[2]; [3]]] r1)
      = (r2, inr (concat [[[1]]; [[2]; [3]]])) /\
    ([[[1]]; [[2]; [3]]] = [] ->
     stop_recording true (push_all [[[1]]; [[2]; [3]]] r1) = (r2, inr [])) /\
    rec_recording r2 = false.
Proof.
  split; [reflexivity|].
  apply (C6_stop_concatenates (mkRecorder 16000 1 None false [] false [])
           [[[1]]; [[2]; [3]]]); reflexivity.
Defined.

(** C7: [stop_recording] outside a session raises
    [RuntimeError("Not currently recording")] (the spec's [NotRecording])
    and [start_recording] inside one raises
    [RuntimeError("Already recording")] (the spec's [AlreadyRecording]);
    both leave every field of the recorder as it was. *)
Theorem C7_misuse_rejected (r_idle r_busy : Recorder) (stream_ok : bool)
  (out : StreamOutcome)
  (Hidle : rec_recording r_idle = false) (Hbusy : rec_recording r_busy = true) :
  stop_recording stream_ok r_idle
    = (r_idle, inl (RuntimeError "Not currently recording")) /\
  start_recording out r_busy
    = (r_busy, Some (RuntimeError "Already recording")).
Proof.
  unfold stop_recording, start_recording. rewrite Hidle, Hbusy. split; reflexivity.
Qed.

Lemma C7_misuse_rejected_witness :
  let r0 := mkRecorder 16000 1 None false [] false [] in
  let r1 := fst (start_recording StreamStarted r0) in
  rec_recording r0 = false /\ rec_recording r1 = true /\
  stop_recording true r0 = (r0, inl (RuntimeError "Not currently recording")) /\
  start_recording StreamStarted r1 = (r1, Some (RuntimeError "Already recording")).
Proof.
  simpl. split; [reflexivity|]. split; [reflexivity|].
  apply (C7_misuse_rejected _ _ true StreamStarted); reflexivity.
Defined.

(** C9: the constructor raises exactly when the sample rate is not
    positive, the channel count is not 1 or 2, or the selected device is
    unsupported; with a valid rate and channel count, a rejected device
    raises the [PortAudioError] that lists [list_devices()]. The first two
    are raised as [ValueError], the last as [sd.PortAudioError]. *)
Theorem C9_constructor_validation (devices : list DeviceInfo)
  (query_device : Selector -> option DeviceInfo)
  (sample_rate channels : Z) (device : option Selector) :
  ((exists e, new_recorder devices query_device sample_rate channels device = inl e)
   <-> (sample_rate <= 0 \/ ~ (channels = 1 \/ channels = 2) \/
        exists d, device = Some d /\ unsupported query_device d channels)) /\
  (forall d, 0 < sample_rate -> (channels = 1 \/ channels = 2) ->
     device = Some d -> unsupported query_device d channels ->
     new_recorder devices query_device sample_rate channels device
     = inl (InvalidDevice d (list_devices devices))).
Proof.
  unfold new_recorder, validate_device, unsupported.
  split.
  - destruct (Z.leb_spec sample_rate 0) as [Hr|Hr].
    { split; [intros _; now left | intros _; eauto]. }
    assert (Hch : (channels =? 1) || (channels =? 2) = true <->
                  (channels = 1 \/ channels = 2))
      by (rewrite orb_true_iff, !Z.eqb_eq; reflexivity).
    destruct ((channels =? 1) || (channels =? 2)) eqn:Ec; simpl.
    2:{ split; [intros _; right; left; intros Hc; apply Hch in Hc; discriminate
              | intros _; eauto]. }
    assert (Hc : channels = 1 \/ channels = 2) by (apply Hch; reflexivity).
    split.
    + intros [e He]. right; right.
      destruct device as [d|]; [|discriminate].
      exists d. split; [reflexivity|].
      destruct (query_device d) as [info|]; [|exact I].
      destruct (Z.ltb_spec (dev_max_input_channels info) channels);
        [assumption|discriminate].
    + intros [?|[?|[d [-> Hu]]]]; [lia|tauto|].
      destruct (query_device d) as [info|]; [|eauto].
      destruct (Z.ltb_spec (dev_max_input_channels info) channels); [eauto|lia].
  - intros d Hr Hc -> Hu.
    destruct (Z.leb_spec sample_rate 0) as [Hr'|_]; [lia|].
    assert (Hc' : (channels =? 1) || (channels =? 2) = true)
      by (destruct Hc as [->| ->]; reflexivity).
    rewrite Hc'. simpl.
    destruct (query_device d) as [info|]; [|reflexivity].
    destruct (Z.ltb_spec (dev_max_input_channels info) channels); [reflexivity|lia].
Qed.

Lemma C9_constructor_validation_witness :
  new_recorder [mkDeviceInfo "mic" 1 48000]
    (fun d => match d with SelIndex 0 => Some (mkDeviceInfo "mic" 1 48000)
                         | _ => None end)
    16000 2 (Some (SelIndex 0))
  = inl (InvalidDevice (SelIndex 0) [mkDeviceEntry 0 "mic" 1 48000]).
Proof.
  apply (proj2 (C9_constructor_validation [mkDeviceInfo "mic" 1 48000]
           (fun d => match d with SelIndex 0 => Some (mkDeviceInfo "mic" 1 48000)
                                | _ => None end)
           16000 2 (Some (SelIndex 0))) (SelIndex 0)).
  - lia.
  - right; reflexivity.
  - reflexivity.
  - unfold unsupported; simpl; lia.
Defined.

End AudioProofs.

Module OrchestratorProofs.
Import Audio Orchestrator.

Lemma transitions_app (s : RecordingState) (a1 a2 : list Act) :
  transitions s (a1 ++ a2) = transitions s a1 ++ transitions (last_write s a1) a2.
Proof.
  revert s; induction a1 as [|a a1 IH]; intros s; [reflexivity|].
  destruct a; simpl; rewrite ?IH; reflexivity.
Qed.

Lemma last_write_app (s : RecordingState) (a1 a2 : list Act) :
  last_write s (a1 ++ a2) = last_write (last_write s a1) a2.
Proof.
  revert s; induction a1 as [|a a1 IH]; intros s; [reflexivity|].
  destruct a; simpl; rewrite ?IH; reflexivity.
Qed.

Ltac press_cases env d :=
  unfold on_key_press;
  destruct (decide (state d <> IDLE)) as [?|Hst];
  [|apply dec_stable in Hst; destruct (start_recording (press_stream env) _) as [? [?|]]];
  simpl; rewrite ?Hst.

Ltac release_cases env d :=
  unfold on_key_release;
  destruct (decide (state d <> RECORDING)) as [?|Hst];
  [|apply dec_stable in Hst;
    destruct (stop_recording (release_stream_ok env) _) as [? [?|buf]];
    [|destruct (Z.of_nat (length buf) <? min_samples (config_sample_rate d));
      [|unfold transcribe_and_output;
        destruct (release_transcript env) as [text|];
        [destruct (has_content text); [destruct (release_output_ok env)|]|]]]];
  simpl; rewrite ?Hst.

(** Each callback leaves [state] at the value it last wrote. *)
Lemma step_last_write (i : Input) (d : Daemon) :
  last_write (state d) (snd (step i d)) = state (fst (step i d)).
Proof.
  destruct i as [env|env]; simpl; [press_cases env d | release_cases env d];
    reflexivity.
Qed.

Lemma step_design (i : Input) (d : Daemon) :
  forallb design_transition (transitions (state d) (snd (step i d))) = true.
Proof.
  destruct i as [env|env]; simpl; [press_cases env d | release_cases env d];
    reflexivity.
Qed.

Lemma run_design (is : list Input) :
  forall d, forallb design_transition (transitions (state d) (snd (run d is))) = true.
Proof.
  induction is as [|i is IH]; intros d; [reflexivity|].
  simpl. pose proof (step_design i d) as H1. pose proof (step_last_write i d) as H2.
  destruct (step i d) as [d1 a1] eqn:E1. specialize (IH d1).
  destruct (run d1 is) as [d2 a2]. simpl in *.
  rewrite transitions_app, forallb_app, H1, H2. exact IH.
Qed.

(** C2 (as the code has it): a press whose capture start fails writes
    [RECORDING] and then [IDLE], a RECORDING -> IDLE transition. *)
Lemma C2_capture_failure_reverts :
  transitions IDLE
    (snd (run (daemon0 16000) [Press (mkPressEnv (StreamCtorFails "device busy"))]))
  = [(IDLE, RECORDING); (RECORDING, IDLE)] /\
  forallb allowed_transition
    (transitions IDLE
      (snd (run (daemon0 16000) [Press (mkPressEnv (StreamCtorFails "device busy"))])))
  = false.
Proof. split; reflexivity. Qed.

(** C2 (amended): over any sequence of callback invocations, every write
    to [state] that changes it is IDLE -> RECORDING, RECORDING ->
    PROCESSING, PROCESSING -> IDLE, or RECORDING -> IDLE (capture start
    failed). *)
Theorem C2_state_transitions (d : Daemon) (is : list Input) :
  Forall (fun t => fst t = snd t \/ allowed_transition t = true \/
                   t = (RECORDING, IDLE))
    (transitions (state d) (snd (run d is))).
Proof.
  pose proof (run_design is d) as H.
  apply List.Forall_forall. intros t Ht.
  eapply List.forallb_forall in H; [|exact Ht].
  unfold design_transition in H.
  apply orb_true_iff in H as [H|H]; [apply orb_true_iff in H as [H|H]|].
  - right; left; exact H.
  - right; right; exact (bool_decide_eq_true_1 _ H).
  - left; exact (bool_decide_eq_true_1 _ H).
Qed.

(** On every path past its guard, [on_key_release] leaves [state] at
    [IDLE]. *)
Lemma release_ends_idle (env : ReleaseEnv) (d : Daemon) :
  state (fst (on_key_release env d)) = IDLE \/ on_key_release env d = (d, []).
Proof.
  unfold on_key_release.
  destruct (decide (state d <> RECORDING)); [right; reflexivity|left].
  destruct (stop_recording _ _); reflexivity.
Qed.

(** C3: a release after a too-short recording writes [IDLE] twice, once
    before the early [return] and once in the [finally] clause; the
    state still ends at [IDLE]. *)
Theorem C3_short_release_writes_idle_twice :
  let d := mkDaemon RECORDING (recording_recorder 16000 []) 16000 in
  let env := mkReleaseEnv true None true in
  snd (on_key_release env d)
  = [SetState PROCESSING; FeedbackStop; CallStopRecording;
     SetState IDLE; SetState IDLE] /\
  idle_writes (snd (on_key_release env d)) = 2%nat /\
  state (fst (on_key_release env d)) = IDLE.
Proof. split; [reflexivity | split; reflexivity]. Qed.

(** C4 (as the code has it): at 11025 Hz the threshold is
    [int(0.1 * 11025) = 1102], so a 1102-sample recording, shorter than
    0.1 * 11025 = 1102.5 samples, is still transcribed. *)
Lemma C4_fractional_threshold_transcribed :
  let d := mkDaemon RECORDING (recording_recorder 11025 [repeat [0] 1102]) 11025 in
  let env := mkReleaseEnv true (Some "ok"%string) true in
  10 * 1102 < 11025 /\
  transcribe_calls (snd (on_key_release env d)) = [(repeat [0] 1102, 11025)].
Proof. split; [lia | vm_compute; reflexivity]. Qed.

(** C4 (amended): once the recorder returns a buffer, a buffer of fewer
    than [int(0.1 * sample_rate)] samples (the floor of
    [sample_rate / 10]) ends the release at [IDLE] with no transcription
    call; any longer buffer is passed to the transcriber exactly once,
    with the configured rate. *)
Theorem C4_min_duration (env : ReleaseEnv) (d : Daemon) (r' : Recorder)
  (buf : list Row)
  (Hst : state d = RECORDING)
  (Hstop : stop_recording (release_stream_ok env) (audio d) = (r', inr buf)) :
  state (fst (on_key_release env d)) = IDLE /\
  (Z.of_nat (length buf) < config_sample_rate d / 10 ->
   transcribe_calls (snd (on_key_release env d)) = []) /\
  (config_sample_rate d / 10 <= Z.of_nat (length buf) ->
   transcribe_calls (snd (on_key_release env d))
   = [(buf, config_sample_rate d)]).
Proof.
  unfold on_key_release.
  destruct (decide (state d <> RECORDING)) as [Hn|_]; [contradiction|].
  simpl. rewrite Hstop. unfold min_samples.
  split; [reflexivity|].
  destruct (Z.ltb_spec (Z.of_nat (length buf)) (config_sample_rate d / 10)) as [Hlt|Hge].
  - split; [reflexivity | intros; lia].
  - split; [intros; lia | intros _].
    unfold transcribe_and_output.
    destruct (release_transcript env) as [text|]; [|reflexivity].
    destruct (has_content text); [destruct (release_output_ok env)|]; reflexivity.
Qed.

Lemma C4_min_duration_witness :
  let env := mkReleaseEnv true (Some "hello"%string) true in
  let d := mkDaemon RECORDING (recording_recorder 16000 [repeat [0] 2000]) 16000 in
  state d = RECORDING /\
  stop_recording true (audio d)
    = (mkRecorder 16000 1 None false [] false [repeat [0] 2000], inr (repeat [0] 2000)) /\
  state (fst (on_key_release env d)) = IDLE /\
  transcribe_calls (snd (on_key_release env d)) = [(repeat [0] 2000, 16000)].
Proof.
  cbv zeta.
  split; [reflexivity|]. split; [reflexivity|].
  pose proof (C4_min_duration (mkReleaseEnv true (Some "hello"%string) true)
    (mkDaemon RECORDING (recording_recorder 16000 [repeat [0] 2000]) 16000)
    (mkRecorder 16000 1 None false [] false [repeat [0] 2000])
    (repeat [0] 2000) eq_refl eq_refl) as [H1 [_ H3]].
  split; [exact H1|]. apply H3. vm_compute. discriminate.
Defined.

(** C8: a press while [state] is not [IDLE] and a release while it is
    not [RECORDING] return at the guard: the daemon (state and recorder)
    is unchanged and nothing is called. *)
Theorem C8_guards_ignore (penv : PressEnv) (renv : ReleaseEnv) (d1 d2 : Daemon)
  (H1 : state d1 <> IDLE) (H2 : state d2 <> RECORDING) :
  on_key_press penv d1 = (d1, []) /\ on_key_release renv d2 = (d2, []).
Proof.
  unfold on_key_press, on_key_release.
  destruct (decide (state d1 <> IDLE)); [|contradiction].
  destruct (decide (state d2 <> RECORDING)); [|contradiction].
  split; reflexivity.
Qed.

Lemma C8_guards_ignore_witness :
  let d := mkDaemon PROCESSING (recording_recorder 16000 []) 16000 in
  state d <> IDLE /\ state d <> RECORDING /\
  on_key_press (mkPressEnv StreamStarted) d = (d, []) /\
  on_key_release (mkReleaseEnv true None true) d = (d, []).
Proof.
  cbv zeta. split; [discriminate|]. split; [discriminate|].
  apply C8_guards_ignore; discriminate.
Defined.

End OrchestratorProofs.

Module TranscriberProofs.
Import TranscriberModel.

Example second_construction_ignored :
  let h := mkHost false false in
  run_ops h initial
    [Construct None "cpu"; LoadModel (Some 7%nat);
     Construct (Some "other"%string) "cuda"]
  = (mkTState (Some 0%nat) (Some 7%nat) (Some "iic/SenseVoiceSmall"%string)
       (Some "cpu"%string) true 1, [0%nat; 0%nat]).
Proof. reflexivity. Qed.

Lemma t_init_instance (h : Host) (mp : option string) (dv : string) (st : TState) :
  t_instance (fst (t_init h mp dv st)) = t_instance st.
Proof.
  unfold t_init.
  destruct (t_is_loaded st && bool_decide (t_model st <> None)); [reflexivity|].
  destruct (resolve_device h dv); reflexivity.
Qed.

Lemma t_init_loaded (h : Host) (mp : option string) (dv : string) (st : TState) :
  t_is_loaded (fst (t_init h mp dv st)) = t_is_loaded st.
Proof.
  unfold t_init.
  destruct (t_is_loaded st && bool_decide (t_model st <> None)); [reflexivity|].
  destruct (resolve_device h dv); reflexivity.
Qed.

Lemma construct_instance (h : Host) (mp : option string) (dv : string)
  (st st' : TState) (r : TError + Obj) :
  construct h mp dv st = (st', r) ->
  t_instance st' = Some (the_instance st) /\
  (forall o, r = inr o -> o = the_instance st) /\
  t_is_loaded st' = t_is_loaded st.
Proof.
  unfold construct, t_new, the_instance.
  destruct (t_instance st) as [o|] eqn:Ei.
  - destruct (t_init h mp dv st) as [st2 err] eqn:E.
    intros Heq; injection Heq as <- <-.
    pose proof (t_init_instance h mp dv st) as Hi.
    pose proof (t_init_loaded h mp dv st) as Hl.
    rewrite E in Hi, Hl. simpl in Hi, Hl.
    split; [congruence|]. split; [|exact Hl].
    intros o' Ho'. destruct err; congruence.
  - set (st1 := mkTState _ _ _ _ _ _).
    destruct (t_init h mp dv st1) as [st2 err] eqn:E.
    intros Heq; injection Heq as <- <-.
    pose proof (t_init_instance h mp dv st1) as Hi.
    pose proof (t_init_loaded h mp dv st1) as Hl.
    rewrite E in Hi, Hl. simpl in Hi, Hl.
    split; [exact Hi|]. split; [|exact Hl].
    intros o' Ho'. destruct err; congruence.
Qed.

Lemma load_model_instance (m : option nat) (st : TState) :
  t_instance (fst (load_model m st)) = t_instance st.
Proof.
  unfold load_model.
  destruct (t_is_loaded st && bool_decide (t_model st <> None)); [reflexivity|].
  destruct m; reflexivity.
Qed.

(** Reachable states: a loaded model implies an instance, and once the
    instance exists every later constructor call returns it. *)
Lemma run_ops_instance (h : Host) (ops : list TOp) :
  forall st,
    (t_is_loaded st = true -> t_instance st <> None) ->
    let '(st', objs) := run_ops h st ops in
    (t_is_loaded st' = true -> t_instance st' <> None) /\
    (forall o, t_instance st = Some o -> t_instance st' = Some o) /\
    (forall o, In o objs -> t_instance st' = Some o).
Proof.
  induction ops as [|op ops IH]; intros st Hinv; simpl.
  - split; [exact Hinv|]. split; [auto | intros _ []].
  - destruct op as [mp dv|m].
    + destruct (construct h mp dv st) as [st1 r] eqn:Ec.
      destruct (construct_instance h mp dv st st1 r Ec) as [Hi1 [Hr Hl1]].
      assert (Hinv1 : t_is_loaded st1 = true -> t_instance st1 <> None)
        by (intros _; congruence).
      specialize (IH st1 Hinv1).
      destruct (run_ops h st1 ops) as [st2 os] eqn:Er.
      destruct IH as [Hinv2 [Hkeep Hobjs]].
      split; [exact Hinv2|]. split.
      * intros o Ho. apply Hkeep. rewrite Hi1. unfold the_instance. rewrite Ho. reflexivity.
      * intros o Hin. destruct r as [e|o'].
        -- exact (Hobjs o Hin).
        -- destruct Hin as [<-|Hin]; [|exact (Hobjs o Hin)].
           apply Hkeep. rewrite Hi1, (Hr o' eq_refl). reflexivity.
    + destruct (t_instance st) as [o0|] eqn:Ei.
      * destruct (load_model m st) as [st1 e] eqn:El.
        pose proof (load_model_instance m st) as Hi1. rewrite El in Hi1. simpl in Hi1.
        assert (Hinv1 : t_is_loaded st1 = true -> t_instance st1 <> None)
          by (intros _; congruence).
        specialize (IH st1 Hinv1).
        destruct (run_ops h st1 ops) as [st2 os].
        destruct IH as [Hinv2 [Hkeep Hobjs]].
        split; [exact Hinv2|]. split; [|exact Hobjs].
        intros o Ho. apply Hkeep. congruence.
      * specialize (IH st ltac:(rewrite Ei; exact Hinv)).
        destruct (run_ops h st ops) as [st2 os].
        destruct IH as [Hinv2 [Hkeep Hobjs]].
        split; [exact Hinv2|]. split; [|exact Hobjs].
        intros o Ho. discriminate.
Qed.

(** C10: from the initial class, every constructor call that returns
    gives the same object, and once the model is loaded a constructor
    call with any [model_path] and [device] returns that object and
    leaves the class (model, path, device, flags) exactly as it was. *)
Theorem C10_singleton (h : Host) (ops : list TOp) :
  let '(st, objs) := run_ops h initial ops in
  (forall o1 o2, In o1 objs -> In o2 objs -> o1 = o2) /\
  (t_is_loaded st = true -> t_model st <> None ->
   exists o, t_instance st = Some o /\
     forall mp dv, construct h mp dv st = (st, inr o)).
Proof.
  pose proof (run_ops_instance h ops initial (fun H => ltac:(discriminate))) as H.
  destruct (run_ops h initial ops) as [st objs].
  destruct H as [Hinv [_ Hobjs]].
  split.
  - intros o1 o2 H1 H2. apply Hobjs in H1, H2. congruence.
  - intros Hl Hm.
    destruct (t_instance st) as [o|] eqn:Ei; [|exfalso; exact (Hinv Hl eq_refl)].
    exists o. split; [reflexivity|]. intros mp dv.
    unfold construct, t_new. rewrite Ei. unfold t_init. rewrite Hl.
    rewrite bool_decide_eq_true_2 by exact Hm. reflexivity.
Qed.

Lemma C10_singleton_witness :
  t_is_loaded (fst (run_ops (mkHost false false) initial
                      [Construct None "cpu"; LoadModel (Some 7%nat)])) = true /\
  construct (mkHost false false) (Some "other"%string) "cuda"
    (fst (run_ops (mkHost false false) initial
            [Construct None "cpu"; LoadModel (Some 7%nat)]))
  = (fst (run_ops (mkHost false false) initial
            [Construct None "cpu"; LoadModel (Some 7%nat)]), inr 0%nat).
Proof.
  split; [reflexivity|].
  pose proof (C10_singleton (mkHost false false)
                [Construct None "cpu"; LoadModel (Some 7%nat)]) as H.
  simpl in H. destruct H as [_ H].
  destruct (H eq_refl ltac:(discriminate)) as [o [Ho Hc]].
  injection Ho as <-. apply Hc.
Defined.

End TranscriberProofs.

Module TranscribeProofs.
Import TranscribeCall.

Example clean_tokens_and_spaces :
  clean_transcription
    ([60;124;101;110;124;62] ++ [32;9;72;105;10;10;32;116;104;101;114;101;12288])
  = [72;105;32;116;104;101;114;101].
Proof. reflexivity. Qed.

Lemma remove_ctrl_no_ctrl (s : pystr) :
  forallb (fun c => negb (is_ctrl c)) (remove_ctrl s) = true.
Proof.
  induction s as [|c s IH]; [reflexivity|].
  unfold remove_ctrl; simpl. destruct (is_ctrl c) eqn:E; simpl; [exact IH|].
  rewrite E. exact IH.
Qed.

Lemma collapse_no_ctrl (s : pystr) (b : bool) :
  forallb (fun c => negb (is_ctrl c)) s = true ->
  forallb (fun c => negb (is_ctrl c)) (collapse_ws b s) = true.
Proof.
  revert b; induction s as [|c s IH]; intros b H; [reflexivity|].
  simpl in H |- *. apply andb_true_iff in H as [Hc Hs].
  destruct (is_py_space c); [destruct b|]; simpl; rewrite ?Hc, ?IH by exact Hs;
    reflexivity.
Qed.

Lemma collapse_spaces (s : pystr) (b : bool) :
  forallb (fun c => negb (is_py_space c) || (c =? 32)) (collapse_ws b s) = true.
Proof.
  revert b; induction s as [|c s IH]; intros b; [reflexivity|].
  simpl. destruct (is_py_space c) eqn:E; [destruct b|]; simpl; rewrite ?E, ?IH;
    reflexivity.
Qed.

Lemma collapse_no_double (s : pystr) :
  forall b,
    no_double_ws (collapse_ws b s) = true /\
    (b = true -> match collapse_ws b s with
                 | [] => true
                 | c :: _ => negb (is_py_space c)
                 end = true).
Proof.
  induction s as [|c s IH]; intros b; [split; reflexivity|].
  simpl. destruct (is_py_space c) eqn:E.
  - destruct b.
    + exact (IH true).
    + destruct (IH true) as [H1 H2]. split; [|discriminate].
      specialize (H2 eq_refl).
      destruct (collapse_ws true s) as [|c' r]; [reflexivity|].
      change (negb (is_py_space 32 && is_py_space c') && no_double_ws (c' :: r) = true).
      destruct (is_py_space c'); [discriminate|]. exact H1.
  - split; [|intros; rewrite E; reflexivity].
    destruct (IH false) as [H1 _].
    destruct (collapse_ws false s) as [|c' r]; [reflexivity|].
    change (negb (is_py_space c && is_py_space c') && no_double_ws (c' :: r) = true).
    rewrite E. exact H1.
Qed.

Lemma no_double_ws_app (l1 l2 : pystr) :
  no_double_ws (l1 ++ l2) = true -> no_double_ws l1 = true /\ no_double_ws l2 = true.
Proof.
  induction l1 as [|a l1 IH]; intros H; [split; [reflexivity|exact H]|].
  destruct l1 as [|b l1].
  - split; [reflexivity|]. destruct l2 as [|c l2]; [reflexivity|].
    simpl in H. apply andb_true_iff in H as [_ H]. exact H.
  - simpl in H. apply andb_true_iff in H as [Hab H].
    destruct (IH H) as [H1 H2]. split; [|exact H2].
    simpl. rewrite Hab. exact H1.
Qed.

Lemma lstrip_suffix (s : pystr) : exists p, s = p ++ lstrip s.
Proof.
  induction s as [|c s [p Hp]]; [exists []; reflexivity|].
  simpl. destruct (is_py_space c).
  - exists (c :: p). simpl. congruence.
  - exists []. reflexivity.
Qed.

Lemma rstrip_prefix (s : pystr) : exists q, s = rstrip s ++ q.
Proof.
  induction s as [|c s [q Hq]]; [exists []; reflexivity|].
  simpl. destruct (rstrip s) as [|d r] eqn:E.
  - destruct (is_py_space c).
    + exists (c :: q). simpl in *. congruence.
    + exists q. simpl in *. congruence.
  - exists q. simpl. rewrite Hq at 1. reflexivity.
Qed.

Lemma lstrip_head (s : pystr) :
  match lstrip s with [] => true | c :: _ => negb (is_py_space c) end = true.
Proof.
  induction s as [|c s IH]; [reflexivity|].
  simpl. destruct (is_py_space c) eqn:E; [exact IH|]. rewrite E. reflexivity.
Qed.

Lemma rstrip_head (s : pystr) :
  match s with [] => true | c :: _ => negb (is_py_space c) end = true ->
  match rstrip s with [] => true | c :: _ => negb (is_py_space c) end = true.
Proof.
  destruct s as [|c s]; [reflexivity|]. intros H. simpl in H |- *.
  destruct (is_py_space c) eqn:Ec; [discriminate|].
  destruct (rstrip s); rewrite ?Ec; reflexivity.
Qed.

Lemma rstrip_last (s : pystr) :
  match last (rstrip s) with None => true | Some c => negb (is_py_space c) end = true.
Proof.
  induction s as [|c s IH]; [reflexivity|].
  simpl. destruct (rstrip s) as [|d r] eqn:E.
  - destruct (is_py_space c) eqn:Ec; [reflexivity|]. simpl. rewrite Ec. reflexivity.
  - rewrite last_cons_cons. exact IH.
Qed.

Lemma clean_form_strip (s : pystr) :
  forallb (fun c => negb (is_ctrl c)) s = true ->
  forallb (fun c => negb (is_py_space c) || (c =? 32)) s = true ->
  no_double_ws s = true ->
  clean_form (strip s) = true.
Proof.
  intros H1 H2 H3. unfold clean_form, strip.
  destruct (lstrip_suffix s) as [p Hp].
  destruct (rstrip_prefix (lstrip s)) as [q Hq].
  set (m := lstrip s) in *. set (o := rstrip m) in *.
  assert (Hs : s = p ++ o ++ q) by (rewrite Hp at 1; rewrite Hq at 1; reflexivity).
  rewrite Hs in H1, H2, H3.
  rewrite !forallb_app in H1, H2.
  apply andb_true_iff in H1 as [_ H1]; apply andb_true_iff in H1 as [H1 _].
  apply andb_true_iff in H2 as [_ H2]; apply andb_true_iff in H2 as [H2 _].
  apply no_double_ws_app in H3 as [_ H3]. apply no_double_ws_app in H3 as [H3 _].
  rewrite H1, H2, H3. simpl.
  pose proof (rstrip_head m (lstrip_head s)) as Hh.
  pose proof (rstrip_last m) as Hl. fold o in Hh, Hl.
  destruct o as [|c r]; [reflexivity|]. rewrite Hh. exact Hl.
Qed.

(** [_clean_transcription] returns text without control characters,
    whose only whitespace is single U+0020 spaces between other
    characters. *)
Theorem clean_transcription_form (text : pystr) :
  clean_form (clean_transcription text) = true.
Proof.
  unfold clean_transcription. destruct text as [|c r]; [reflexivity|].
  set (t := remove_ctrl (remove_tokens _ _)).
  apply clean_form_strip.
  - apply collapse_no_ctrl, remove_ctrl_no_ctrl.
  - apply collapse_spaces.
  - apply (collapse_no_double t false).
Qed.

Lemma clean_value_form (v : PyVal) (o : pystr) :
  clean_value v = inr o -> clean_form o = true.
Proof.
  unfold clean_value. destruct (falsy v); [intros H; injection H as <-; reflexivity|].
  destruct v; try discriminate. intros H; injection H as <-.
  apply clean_transcription_form.
Qed.

(** Every text [transcribe] returns is in cleaned form, whatever the
    model produced. *)
Theorem transcribe_output_form (loaded : bool) (generated : option PyVal)
  (audio : NdArray) (sample_rate : Z) (o : pystr)
  (H : transcribe loaded generated audio sample_rate = inr o) :
  clean_form o = true.
Proof.
  revert H. unfold transcribe.
  destruct loaded; [|discriminate]. simpl.
  destruct (as_mono audio) as [e|xs]; [discriminate|].
  destruct (Nat.eqb (length xs) 0); [intros H; injection H as <-; reflexivity|].
  destruct (Z.of_nat (length xs) <? sample_rate / 10);
    [intros H; injection H as <-; reflexivity|].
  destruct generated as [result|]; [|discriminate].
  unfold extract_result.
  destruct (falsy result); [intros H; injection H as <-; reflexivity|].
  destruct result as [| s | xs' | items |]; try discriminate.
  - apply clean_value_form.
  - destruct (join_space (collect_texts xs')); [apply clean_value_form|discriminate].
  - destruct (dict_get items key_text); [apply clean_value_form|].
    intros H; injection H as <-; reflexivity.
Qed.

Lemma transcribe_output_form_witness :
  transcribe true (Some (PyList [PyDict [(key_text, PyStr [72; 32; 32; 105])]; PyStr [33]]))
    (Arr1 (repeat 0 1600)) 16000 = inr [72; 32; 105; 32; 33] /\
  clean_form [72; 32; 105; 32; 33] = true.
Proof.
  split; [vm_compute; reflexivity|].
  apply (transcribe_output_form true
           (Some (PyList [PyDict [(key_text, PyStr [72; 32; 32; 105])]; PyStr [33]]))
           (Arr1 (repeat 0 1600)) 16000).
  vm_compute. reflexivity.
Defined.

(** Audio that is empty or shorter than [int(0.1 * sample_rate)] samples
    is answered with [""] without using the model: the result is the same
    whatever [generate] would return or raise. *)
Theorem transcribe_short_audio (generated : option PyVal) (audio : NdArray)
  (sample_rate : Z) (xs : list Z)
  (Hmono : as_mono audio = inr xs)
  (Hshort : xs = [] \/ Z.of_nat (length xs) < sample_rate / 10) :
  transcribe true generated audio sample_rate = inr [].
Proof.
  unfold transcribe. simpl. rewrite Hmono.
  destruct Hshort as [-> | Hlt]; [reflexivity|].
  destruct (Nat.eqb (length xs) 0); [reflexivity|].
  destruct (Z.ltb_spec (Z.of_nat (length xs)) (sample_rate / 10)); [reflexivity|lia].
Qed.

Lemma transcribe_short_audio_witness :
  as_mono (Arr2 1 (repeat [5] 1000)) = inr (repeat 5 1000) /\
  transcribe true None (Arr2 1 (repeat [5] 1000)) 16000 = inr [].
Proof.
  split; [vm_compute; reflexivity|].
  apply (transcribe_short_audio None (Arr2 1 (repeat [5] 1000)) 16000 (repeat 5 1000)).
  - vm_compute; reflexivity.
  - right. vm_compute. reflexivity.
Defined.

(** A single-column 2-D buffer, the [(samples, 1)] array the recorder
    returns for mono audio, is transcribed exactly as the 1-D array of
    its samples. *)
Theorem transcribe_mono_column (loaded : bool) (generated : option PyVal)
  (rows : list (list Z)) (sample_rate : Z)
  (Hcols : Forall (fun r => length r = 1%nat) rows) :
  transcribe loaded generated (Arr2 1 rows) sample_rate
  = transcribe loaded generated (Arr1 (concat rows)) sample_rate.
Proof.
  assert (Hm : as_mono (Arr2 1 rows) = inr (concat rows)).
  { simpl. destruct (Nat.eqb (length rows) 1) eqn:E.
    - apply Nat.eqb_eq in E. destruct rows as [|r [|]]; try discriminate.
      inversion Hcols; subst. simpl. rewrite app_nil_r. reflexivity.
    - simpl. f_equal. clear E. induction Hcols as [|r rs Hr _ IH]; [reflexivity|].
      destruct r as [|x [|]]; try discriminate. simpl. f_equal. exact IH. }
  unfold transcribe. rewrite Hm. reflexivity.
Qed.

Lemma transcribe_mono_column_witness :
  Forall (fun r => length r = 1%nat) [[1]; [2]; [3]] /\
  transcribe true (Some (PyStr [104])) (Arr2 1 [[1]; [2]; [3]]) 20
  = transcribe true (Some (PyStr [104])) (Arr1 [1; 2; 3]) 20.
Proof.
  split; [repeat constructor|].
  apply (transcribe_mono_column true (Some (PyStr [104])) [[1]; [2]; [3]] 20).
  repeat constructor.
Defined.

End TranscribeProofs.

Module AudioQueriesProofs.
Import Audio AudioQueries AudioProofs.

Lemma samples_in_concat (fs : list Frame) :
  samples_in fs = Z.of_nat (length (concat fs)).
Proof.
  induction fs as [|f fs IH]; [reflexivity|].
  simpl. rewrite IH, length_app. lia.
Qed.

(** [get_audio_duration] follows the session: after [start_recording]
    and the frames delivered so far it counts exactly those frames'
    samples, and after [stop_recording] it equals the length of the
    returned buffer over the sample rate. *)
Theorem audio_duration_tracks_session (r : Recorder) (frames : list Frame)
  (Hidle : rec_recording r = false) :
  let r2 := push_all frames (fst (start_recording StreamStarted r)) in
  get_audio_duration r2
    = (inject_Z (Z.of_nat (length (concat frames))) / inject_Z (rec_sample_rate r))%Q /\
  forall r3 buf, stop_recording true r2 = (r3, inr buf) ->
    get_audio_duration r3
    = (inject_Z (Z.of_nat (length buf)) / inject_Z (rec_sample_rate r))%Q.
Proof.
  unfold start_recording. rewrite Hidle. simpl.
  rewrite push_all_fields. simpl. split.
  - unfold get_audio_duration. simpl. rewrite samples_in_concat. f_equal. f_equal. lia.
  - intros r3 buf H. unfold stop_recording in H. simpl in H.
    injection H as <- <-. unfold get_audio_duration. simpl.
    rewrite stop_result_concat, samples_in_concat. reflexivity.
Qed.

Lemma audio_duration_tracks_session_witness :
  let r := mkRecorder 16000 1 None false [[[9]]] false [] in
  rec_recording r = false /\
  get_audio_duration (push_all [[[1]; [2]]; [[3]]] (fst (start_recording StreamStarted r)))
    = (inject_Z 3 / inject_Z 16000)%Q.
Proof.
  cbv zeta. split; [reflexivity|].
  apply (audio_duration_tracks_session (mkRecorder 16000 1 None false [[[9]]] false [])
           [[[1]; [2]]; [[3]]]). reflexivity.
Defined.

Lemma list_devices_from_spec (ds : list DeviceInfo) :
  forall (idx : Z) (e : DeviceEntry),
    In e (list_devices_from idx ds) <->
    exists i d, nth_error ds i = Some d /\ 0 < dev_max_input_channels d /\
      e = mkDeviceEntry (idx + Z.of_nat i) (dev_name d) (dev_max_input_channels d)
            (dev_default_samplerate d).
Proof.
  induction ds as [|d ds IH]; intros idx e; simpl.
  - split; [intros []|]. intros [i [d [H _]]]. destruct i; discriminate.
  - assert (Htl : In e (list_devices_from (idx + 1) ds) <->
                  exists i d', nth_error (d :: ds) (S i) = Some d' /\
                    0 < dev_max_input_channels d' /\
                    e = mkDeviceEntry (idx + Z.of_nat (S i)) (dev_name d')
                          (dev_max_input_channels d') (dev_default_samplerate d')).
    { rewrite IH. split; intros [i [d' [H1 [H2 H3]]]]; exists i, d';
        (split; [exact H1|split; [exact H2|]]); rewrite H3; f_equal; lia. }
    destruct (Z.ltb_spec 0 (dev_max_input_channels d)) as [Hp|Hp].
    + simpl. rewrite Htl. split.
      * intros [<-|[i [d' H]]]; [exists O, d; rewrite Z.add_0_r; auto|].
        exists (S i), d'. exact H.
      * intros [i [d' [H1 [H2 H3]]]]. destruct i as [|i].
        -- left. injection H1 as <-. rewrite H3, Z.add_0_r. reflexivity.
        -- right. exists i, d'. auto.
    + rewrite Htl. split.
      * intros [i [d' H]]. exists (S i), d'. exact H.
      * intros [i [d' [H1 [H2 H3]]]]. destruct i as [|i].
        -- injection H1 as <-. lia.
        -- exists i, d'. auto.
Qed.

(** [list_devices()] lists exactly the devices of the table with at
    least one input channel, each under its position in the table. *)
Theorem list_devices_spec (ds : list DeviceInfo) (e : DeviceEntry) :
  In e (list_devices ds) <->
  exists i d, nth_error ds i = Some d /\ 0 < dev_max_input_channels d /\
    e = mkDeviceEntry (Z.of_nat i) (dev_name d) (dev_max_input_channels d)
          (dev_default_samplerate d).
Proof. apply list_devices_from_spec. Qed.

(** [get_default_device] returns, when it succeeds, an entry of
    [list_devices()] for the default index (channel counts being
    non-negative); when it fails, the error carries [list_devices()], or
    says no input device exists when that list is empty. *)
Theorem get_default_device_spec (ds : list DeviceInfo) (default_idx : option Z)
  (Hnn : Forall (fun d => 0 <= dev_max_input_channels d) ds) :
  (forall e, get_default_device ds default_idx = inr e ->
     In e (list_devices ds) /\ default_idx = Some (entry_index e)) /\
  (forall err, get_default_device ds default_idx = inl err ->
     err = match list_devices ds with
           | [] => NoInputDevices
           | avail => NoDefaultDevice avail
           end).
Proof.
  unfold get_default_device.
  set (fail := match list_devices ds with
               | [] => inl NoInputDevices
               | avail => inl (NoDefaultDevice avail)
               end : DefaultDeviceError + DeviceEntry).
  assert (Hfail : forall err, fail = inl err ->
            err = match list_devices ds with
                  | [] => NoInputDevices
                  | avail => NoDefaultDevice avail
                  end)
    by (intros err; unfold fail; destruct (list_devices ds); congruence).
  assert (Hfail' : forall e, fail <> inr e)
    by (intros e; unfold fail; destruct (list_devices ds); discriminate).
  destruct default_idx as [i|].
  2:{ split; [intros e H; exfalso; exact (Hfail' e H) | exact Hfail]. }
  destruct (Z.ltb_spec i 0) as [Hneg|Hnneg].
  { split; [intros e H; exfalso; exact (Hfail' e H) | exact Hfail]. }
  unfold query_index. destruct (Z.ltb_spec i 0) as [|_]; [lia|].
  destruct (nth_error ds (Z.to_nat i)) as [d|] eqn:Hn.
  2:{ split; [intros e H; exfalso; exact (Hfail' e H) | exact Hfail]. }
  destruct (Z.eqb_spec (dev_max_input_channels d) 0) as [H0|H0].
  { split; [intros e H; exfalso; exact (Hfail' e H) | exact Hfail]. }
  split; [|intros err H; discriminate].
  intros e H. injection H as <-. split; [|reflexivity].
  apply list_devices_spec. exists (Z.to_nat i), d.
  split; [exact Hn|]. split.
  - apply nth_error_In in Hn. eapply List.Forall_forall in Hnn; [|exact Hn]. lia.
  - rewrite Z2Nat.id by lia. reflexivity.
Qed.

Lemma get_default_device_spec_witness :
  Forall (fun d => 0 <= dev_max_input_channels d)
    [mkDeviceInfo "hdmi" 0 48000; mkDeviceInfo "mic" 2 44100] /\
  get_default_device [mkDeviceInfo "hdmi" 0 48000; mkDeviceInfo "mic" 2 44100] (Some 1)
    = inr (mkDeviceEntry 1 "mic" 2 44100) /\
  In (mkDeviceEntry 1 "mic" 2 44100)
    (list_devices [mkDeviceInfo "hdmi" 0 48000; mkDeviceInfo "mic" 2 44100]).
Proof.
  split; [repeat constructor; simpl; lia|]. split; [reflexivity|].
  apply (proj1 (get_default_device_spec
                  [mkDeviceInfo "hdmi" 0 48000; mkDeviceInfo "mic" 2 44100] (Some 1)
                  ltac:(repeat constructor; simpl; lia))).
  reflexivity.
Defined.

(** A [start_recording] that fails on the stream leaves no session open:
    [is_recording()] is false and [stop_recording] then raises
    [RuntimeError("Not currently recording")]. *)
Theorem failed_start_leaves_no_session (r r' : Recorder) (out : StreamOutcome)
  (e : AudioError) (stream_ok : bool)
  (Hidle : rec_recording r = false)
  (Hfail : start_recording out r = (r', Some e)) :
  is_recording r' = false /\
  stop_recording stream_ok r' = (r', inl (RuntimeError "Not currently recording")).
Proof.
  unfold start_recording in Hfail. rewrite Hidle in Hfail.
  destruct out; [discriminate| |]; injection Hfail as <- _; split; reflexivity.
Qed.

Lemma failed_start_leaves_no_session_witness :
  let r := mkRecorder 16000 1 None false [] false [] in
  rec_recording r = false /\
  start_recording (StreamStartFails "busy") r
    = (mkRecorder 16000 1 None true [] false [], Some (PortAudioError "busy")) /\
  is_recording (mkRecorder 16000 1 None true [] false []) = false.
Proof.
  cbv zeta. split; [reflexivity|]. split; [reflexivity|].
  apply (failed_start_leaves_no_session (mkRecorder 16000 1 None false [] false [])
           _ (StreamStartFails "busy") (PortAudioError "busy") true);
    reflexivity.
Defined.

End AudioQueriesProofs.

Module DaemonProofs.
Import Audio Orchestrator Daemon AudioProofs.

Lemma step_consistent (i : Input) (d : Daemon) :
  consistent d -> clean_stop i -> consistent (fst (step i d)).
Proof.
  intros [[Hs Hr]|[Hs Hr]] Hi; destruct i as [env|env]; simpl in Hi |- *.
  - unfold on_key_press. rewrite Hs. simpl.
    unfold start_recording. simpl. rewrite Hr.
    destruct (press_stream env); [right|left|left]; split; reflexivity.
  - unfold on_key_release. rewrite Hs. simpl. left; split; assumption.
  - unfold on_key_press. rewrite Hs. simpl. right; split; assumption.
  - unfold on_key_release. rewrite Hs. simpl.
    unfold stop_recording. simpl. rewrite Hr, Hi, andb_false_r. simpl.
    left; split; reflexivity.
Qed.

(** While stopping the stream never fails, the daemon between two
    callbacks is either idle with no open session or recording with the
    recorder in its session; in particular [state] is never left at
    [PROCESSING]. *)
Theorem daemon_consistent (d : Daemon) (is : list Input)
  (Hc : consistent d) (Hok : Forall clean_stop is) :
  consistent (fst (run d is)).
Proof.
  revert d Hc; induction Hok as [|i is Hi _ IH]; intros d Hc; [exact Hc|].
  simpl. pose proof (step_consistent i d Hc Hi) as H1.
  destruct (step i d) as [d1 a1]. specialize (IH d1 H1).
  destruct (run d1 is) as [d2 a2]. exact IH.
Qed.

Lemma daemon_consistent_witness :
  consistent (Orchestrator.daemon0 16000) /\
  Forall clean_stop [Press (mkPressEnv StreamStarted);
                     Release (mkReleaseEnv true (Some "x"%string) true)] /\
  consistent (fst (run (Orchestrator.daemon0 16000)
                     [Press (mkPressEnv StreamStarted);
                      Release (mkReleaseEnv true (Some "x"%string) true)])).
Proof.
  split; [left; split; reflexivity|]. split; [repeat constructor|].
  apply daemon_consistent; [left; split; reflexivity | repeat constructor].
Defined.




Lemma run_events_frames (fs : list Frame) :
  forall d rest, rec_recording (audio d) = true ->
    run_events d (map AudioFrame fs ++ rest)
    = run_events (with_audio d (push_all fs (audio d))) rest.
Proof.
  induction fs as [|f fs IH]; intros d rest Hr.
  - simpl. destruct d as [s r sr]. reflexivity.
  - simpl. unfold deliver_frame. rewrite Hr.
    rewrite IH by exact Hr. reflexivity.
Qed.

(** End to end: from an idle daemon, a press whose stream starts, the
    frames the audio thread delivers, then a release whose stream stops
    cleanly, ends at [IDLE] and transcribes the concatenated frames once
    when there are at least [int(0.1 * sample_rate)] samples, and not at
    all otherwise. *)
Theorem press_frames_release (d : Daemon) (fs : list Frame) (env : ReleaseEnv)
  (Hst : state d = IDLE) (Hrec : rec_recording (audio d) = false)
  (Hok : release_stream_ok env = true) :
  let '(d', acts) :=
    run_events d ([Callback (Press (mkPressEnv StreamStarted))] ++
                  map AudioFrame fs ++ [Callback (Release env)]) in
  state d' = IDLE /\
  transcribe_calls acts =
    (if Z.of_nat (length (concat fs)) <? config_sample_rate d / 10 then []
     else [(concat fs, config_sample_rate d)]).
Proof.
  simpl. unfold on_key_press. rewrite Hst. simpl.
  unfold start_recording. simpl. rewrite Hrec. simpl.
  rewrite run_events_frames by reflexivity.
  simpl. rewrite push_all_fields. simpl.
  unfold on_key_release. simpl.
  unfold stop_recording. simpl. rewrite Hok, stop_result_concat. simpl.
  split; [reflexivity|].
  unfold min_samples.
  destruct (Z.of_nat (length (concat fs)) <? config_sample_rate d / 10); [reflexivity|].
  unfold transcribe_and_output.
  destruct (release_transcript env) as [text|]; [|reflexivity].
  destruct (has_content text); [destruct (release_output_ok env)|]; reflexivity.
Qed.

Lemma press_frames_release_witness :
  state (Orchestrator.daemon0 10) = IDLE /\
  rec_recording (audio (Orchestrator.daemon0 10)) = false /\
  release_stream_ok (mkReleaseEnv true (Some "hi"%string) true) = true /\
  transcribe_calls
    (snd (run_events (Orchestrator.daemon0 10)
            ([Callback (Press (mkPressEnv StreamStarted))] ++
             map AudioFrame [[[1]]; [[2]; [3]]] ++
             [Callback (Release (mkReleaseEnv true (Some "hi"%string) true))])))
  = [([[1]; [2]; [3]], 10)].
Proof.
  split; [reflexivity|]. split; [reflexivity|]. split; [reflexivity|].
  pose proof (press_frames_release (Orchestrator.daemon0 10) [[[1]]; [[2]; [3]]]
                (mkReleaseEnv true (Some "hi"%string) true) eq_refl eq_refl eq_refl) as H.
  destruct (run_events _ _) as [d' acts] eqn:E. simpl. destruct H as [_ H].
  exact H.
Defined.

End DaemonProofs.

Module HotkeyLifecycleProofs.
Import Hotkey HotkeyLifecycle.

Lemma init_key_states_false (codes : list Z) (c : Z) (b : bool) :
  init_key_states codes !! c = Some b -> b = false.
Proof.
  unfold init_key_states. induction codes as [|c' codes IH]; simpl.
  - rewrite lookup_empty. discriminate.
  - destruct (decide (c' = c)) as [<-|Hne].
    + rewrite lookup_insert_eq. congruence.
    + rewrite lookup_insert_ne by exact Hne. exact IH.
Qed.

Lemma monitored_In (codes : list Z) (c : Z) :
  In c codes -> monitored codes c = true.
Proof.
  intros H. unfold monitored. apply existsb_exists. exists c.
  split; [exact H | apply Z.eqb_refl].
Qed.

Lemma open_devices_app (opens : string -> bool) (paths : list string) :
  forall devs, open_devices opens paths devs = devs ++ List.filter opens paths.
Proof.
  induction paths as [|p ps IH]; intros devs; simpl.
  - rewrite app_nil_r. reflexivity.
  - rewrite IH. destruct (opens p); [rewrite <- app_assoc|]; reflexivity.
Qed.

Lemma stop_not_running (hl : HL) : hl_running (stop hl) = false.
Proof.
  unfold stop. destruct (hl_running hl) eqn:E; [reflexivity | exact E].
Qed.

Lemma start_success_fields (listing : option (list InputDeviceInfo))
  (opens : string -> bool) (hl hl' : HL) :
  hl_running hl = false -> start listing opens hl = (hl', None) ->
  exists ds, listing = Some ds /\
    hl_devices hl' = hl_devices hl ++ List.filter opens (map dev_path (List.filter is_keyboard ds)) /\
    hl_devices hl' <> [] /\ hl_running hl' = true /\ hl_thread hl' = true /\
    hl_selector hl' = true /\
    hl_listener hl' = mkListener (key_codes (hl_listener hl))
                        (init_key_states (key_codes (hl_listener hl))).
Proof.
  intros Hr Hs. unfold start in Hs. rewrite Hr in Hs.
  destruct listing as [ds|]; [|discriminate]. exists ds. split; [reflexivity|].
  unfold find_keyboard_devices in Hs. revert Hs.
  destruct (map dev_path (List.filter is_keyboard ds)) as [|p ps] eqn:Ep;
    [intros Hs; discriminate|].
  rewrite open_devices_app.
  destruct (hl_devices hl ++ List.filter opens (p :: ps)) as [|d ds'] eqn:Ed;
    [intros Hs; discriminate|].
  intros Hs. injection Hs as <-. simpl.
  split; [reflexivity|]. split; [discriminate|]. repeat split.
Qed.

Lemma lstep_inv (op : LOp) (hl : HL) : lifecycle_inv hl -> lifecycle_inv (lstep op hl).
Proof.
  intros Hinv. destruct op as [listing opens| |evs|p]; simpl.
  - destruct (start listing opens hl) as [hl' [e|]] eqn:Es.
    + unfold start in Es. destruct (hl_running hl) eqn:Er.
      * injection Es as <- _. exact Hinv.
      * destruct Hinv as [[_ Hd]|[Hr _]]; [|congruence].
        destruct (find_keyboard_devices listing) as [e'|paths].
        -- injection Es as <- _. left; split; assumption.
        -- destruct (open_devices opens paths (hl_devices hl)) as [|d ds].
           ++ injection Es as <- _. left; split; reflexivity.
           ++ discriminate.
    + simpl. destruct Hinv as [[Hr Hd]|[Hr _]].
      * destruct (start_success_fields listing opens hl hl' Hr Es)
          as (ds & _ & _ & _ & H1 & H2 & H3 & _).
        right; repeat split; assumption.
      * unfold start in Es. rewrite Hr in Es. discriminate.
  - unfold stop. destruct Hinv as [[Hr Hd]|[Hr [_ Hs]]].
    + rewrite Hr. simpl. left; split; assumption.
    + rewrite Hr, Hs. simpl. left; split; reflexivity.
  - unfold on_events. destruct (hl_running hl) eqn:Er; [|exact Hinv].
    destruct (listen_loop (hl_listener hl) evs) as [l' fs]. simpl.
    destruct Hinv as [[Hr _]|[_ [Ht Hs]]]; [congruence|].
    right; simpl; repeat split; assumption.
  - unfold disconnect. destruct (hl_running hl) eqn:Er; [|exact Hinv].
    destruct Hinv as [[Hr _]|[_ [Ht Hs]]]; [congruence|].
    right; simpl; repeat split; assumption.
Qed.

(** Whatever sequence of [start], [stop], events and device losses a
    fresh listener goes through, whenever it is not running it holds no
    open device (a failed [start] and [stop] both leave [_devices]
    empty), and whenever it is running its thread and selector are set. *)
Theorem stopped_listener_holds_no_devices (codes : list Z) (ops : list LOp) :
  lifecycle_inv (run_lops (hl_new codes) ops).
Proof.
  unfold run_lops.
  assert (H : forall hl, lifecycle_inv hl ->
             lifecycle_inv (fold_left (fun h op => lstep op h) ops hl)).
  { induction ops as [|op ops IH]; intros hl Hl; simpl; [exact Hl|].
    apply IH, lstep_inv, Hl. }
  apply H. left; split; reflexivity.
Qed.

(** A successful [start] of a listener that is stopped and holds no
    device opens exactly the keyboard devices (those whose [EV_KEY]
    capabilities contain [KEY_A], [KEY_ENTER] or [KEY_SPACE]) that could
    be opened, in listing order, and at least one; the listener then
    runs, and a second [start] raises "HotkeyListener is already running"
    and changes nothing. *)
Theorem start_opens_keyboards (listing listing2 : option (list InputDeviceInfo))
  (opens opens2 : string -> bool) (hl hl' : HL)
  (Hr : hl_running hl = false) (Hd : hl_devices hl = [])
  (Hs : start listing opens hl = (hl', None)) :
  exists ds, listing = Some ds /\
    hl_devices hl' = List.filter opens (map dev_path (List.filter is_keyboard ds)) /\
    hl_devices hl' <> [] /\ hl_running hl' = true /\
    start listing2 opens2 hl' = (hl', Some (RuntimeError "HotkeyListener is already running")).
Proof.
  destruct (start_success_fields listing opens hl hl' Hr Hs)
    as (ds & Hl & Hdev & Hne & Hrun & _ & _ & _).
  exists ds. rewrite Hd in Hdev. simpl in Hdev.
  split; [exact Hl|]. split; [exact Hdev|]. split; [exact Hne|].
  split; [exact Hrun|]. unfold start. rewrite Hrun. reflexivity.
Qed.

Lemma start_opens_keyboards_witness :
  exists hl',
    start (Some [power_button; kbd]) (fun _ => true) (hl_new default_key_codes)
      = (hl', None) /\
    hl_devices hl' = ["/dev/input/event3"%string].
Proof.
  eexists. split; [reflexivity|].
  destruct (start_opens_keyboards (Some [power_button; kbd]) None
              (fun _ => true) (fun _ => false) (hl_new default_key_codes) _
              eq_refl eq_refl eq_refl) as (ds & Hl & Hdev & _).
  injection Hl as <-. rewrite Hdev. reflexivity.
Defined.

(** [start] resets [_key_states]: after [stop] and a successful [start],
    a monitored key that was held when the listener stopped (or whose
    keyboard was unplugged while held) is pressed anew, and that press
    fires [on_press]. *)
Theorem restart_forgets_held_keys (listing : option (list InputDeviceInfo))
  (opens : string -> bool) (hl hl' : HL) (c : Z)
  (Hs : start listing opens (stop hl) = (hl', None))
  (Hc : In c (key_codes (hl_listener hl))) :
  hl_running hl' = true /\ snd (on_events [key_press c] hl') = [Pressed c].
Proof.
  destruct (start_success_fields listing opens (stop hl) hl' (stop_not_running hl) Hs)
    as (ds & _ & _ & _ & Hrun & _ & _ & Hl).
  assert (Hk : key_codes (hl_listener (stop hl)) = key_codes (hl_listener hl)).
  { unfold stop. destruct (negb (hl_running hl)); reflexivity. }
  rewrite Hk in Hl. split; [exact Hrun|].
  unfold on_events. rewrite Hrun, Hl. simpl.
  unfold handle_event. simpl. rewrite (monitored_In _ _ Hc). simpl.
  destruct (init_key_states (key_codes (hl_listener hl)) !! c) as [b|] eqn:Eb.
  - rewrite (init_key_states_false _ _ _ Eb). reflexivity.
  - reflexivity.
Qed.

Lemma restart_forgets_held_keys_witness :
  let hl0 := fst (on_events [key_press KEY_LEFTCTRL]
                   (fst (start (Some [kbd]) (fun _ => true) (hl_new default_key_codes)))) in
  snd (on_events [key_press KEY_LEFTCTRL] hl0) = [] /\
  exists hl', start (Some [kbd]) (fun _ => true) (stop hl0) = (hl', None) /\
    snd (on_events [key_press KEY_LEFTCTRL] hl') = [Pressed KEY_LEFTCTRL].
Proof.
  cbv zeta. split; [reflexivity|].
  eexists. split; [reflexivity|].
  refine (proj2 (restart_forgets_held_keys (Some [kbd]) (fun _ => true)
    (fst (on_events [key_press KEY_LEFTCTRL]
           (fst (start (Some [kbd]) (fun _ => true) (hl_new default_key_codes)))))
    _ KEY_LEFTCTRL _ _)); [reflexivity | simpl; left; reflexivity].
Defined.

End HotkeyLifecycleProofs.

Module TranscriberConfigProofs.
Import TranscriberModel.

(** [_resolve_device] never fails for ["auto"], and whenever it succeeds
    it yields ["cpu"], or ["cuda"] only if [torch] imports and reports
    CUDA available. *)
Theorem resolve_device_result (h : Host) (device : string) :
  (device = "auto"%string -> exists r, resolve_device h device = inr r) /\
  (forall r, resolve_device h device = inr r ->
     r = "cpu"%string \/
     (r = "cuda"%string /\ torch_present h = true /\ cuda_available h = true)).
Proof.
  split.
  - intros ->. unfold resolve_device. simpl.
    destruct (torch_present h && cuda_available h); eexists; reflexivity.
  - intros r. unfold resolve_device.
    destruct (String.eqb device "auto").
    + destruct (torch_present h) eqn:Et, (cuda_available h) eqn:Ec; simpl;
        intros Hr; injection Hr as <-; auto.
    + destruct (String.eqb device "cuda").
      * destruct (torch_present h) eqn:Et; simpl; [|discriminate].
        destruct (cuda_available h) eqn:Ec; simpl; [|discriminate].
        intros Hr; injection Hr as <-; auto.
      * destruct (String.eqb device "cpu"); [|discriminate].
        intros Hr; injection Hr as <-; auto.
Qed.

Lemma resolve_device_result_witness :
  exists r, resolve_device (mkHost true false) "auto" = inr r /\ r = "cpu"%string.
Proof.
  destruct (proj1 (resolve_device_result (mkHost true false) "auto") eq_refl) as [r Hr].
  exists r. split; [exact Hr|].
  destruct (proj2 (resolve_device_result (mkHost true false) "auto") r Hr)
    as [H|[_ [_ H]]]; [exact H | discriminate].
Defined.

(** Once the model is loaded, [Transcriber(model_path, device)] with any
    arguments returns the existing object and changes nothing: neither
    the model path nor the device is updated, and an unavailable or
    invalid device raises no error. *)
Theorem loaded_transcriber_ignores_config (h : Host) (mp : option string)
  (dv : string) (st : TState) (m : nat) (o : Obj)
  (Hl : t_is_loaded st = true) (Hm : t_model st = Some m)
  (Hi : t_instance st = Some o) :
  construct h mp dv st = (st, inr o).
Proof.
  unfold construct, t_new. rewrite Hi. unfold t_init. rewrite Hl, Hm.
  rewrite bool_decide_eq_true_2 by discriminate. reflexivity.
Qed.

Lemma loaded_transcriber_ignores_config_witness :
  let st := fst (run_ops (mkHost true true) initial [Construct None "cuda"; LoadModel (Some 7%nat)]) in
  t_device st = Some "cuda"%string /\
  construct (mkHost false false) (Some "other/model"%string) "bogus" st = (st, inr 0%nat).
Proof.
  cbv zeta. split; [reflexivity|].
  apply (loaded_transcriber_ignores_config _ _ _ _ 7%nat); reflexivity.
Defined.

(** Before the model is loaded, a constructor call whose device cannot
    be resolved raises, but only after [_model_path] has been replaced:
    the new path is kept with the previous device, and the instance is
    the same object. *)
Theorem failed_construct_sets_model_path (h : Host) (mp : option string)
  (dv : string) (st : TState) (e : TError)
  (Hnl : t_is_loaded st = false) (He : resolve_device h dv = inl e) :
  let '(st', r) := construct h mp dv st in
  r = inl e /\
  t_model_path st' = Some (match mp with None => "iic/SenseVoiceSmall"%string | Some p => p end) /\
  t_device st' = t_device st /\
  t_instance st' = Some (the_instance st).
Proof.
  unfold construct, t_new, the_instance.
  destruct (t_instance st) as [o|] eqn:Ei; simpl; unfold t_init; simpl;
    rewrite Hnl; simpl; rewrite He; simpl; repeat split; assumption || reflexivity.
Qed.

Lemma failed_construct_sets_model_path_witness :
  let st := fst (run_ops (mkHost false false) initial [Construct (Some "a"%string) "cpu"]) in
  t_is_loaded st = false /\
  t_model_path (fst (construct (mkHost false false) (Some "b"%string) "cuda" st)) = Some "b"%string /\
  t_device (fst (construct (mkHost false false) (Some "b"%string) "cuda" st)) = Some "cpu"%string.
Proof.
  cbv zeta. split; [reflexivity|].
  pose proof (failed_construct_sets_model_path (mkHost false false) (Some "b"%string) "cuda"
    (fst (run_ops (mkHost false false) initial [Construct (Some "a"%string) "cpu"]))
    (ValueError "CUDA device requested but PyTorch not found. Please install PyTorch or use device='cpu'")
    eq_refl eq_refl) as H.
  destruct (construct _ _ _ _) as [st' r]. destruct H as (_ & H1 & H2 & _).
  split; [exact H1 | exact H2].
Defined.

End TranscriberConfigProofs.
